(** * The settings editor: plugin list, plugin editors and close gate

    A shallow embedding of the TypeScript sources of the setting editor
    package: [PluginList] (selection, filtering, sorting, rendering hints,
    the modified-plugins scan), the two [PluginEditor] variants (raw editor
    and form editor) and [SimpleSettingsEditor.onCloseRequest].

    Conventions.
    - A JavaScript object used as a dictionary is a [gmap string _]; the
      registry's plugin table, whose key order [Object.keys] exposes to the
      sort, is an association list in enumeration order.
    - A promise is modelled by its fate ([Fulfilled], [Rejected] or never
      settled); the answer the user gives to a modal dialog and the outcome
      of a registry load are inputs of the operation that awaits them.
    - Every observable side effect (a posted update request, an emitted
      signal, a dialog, a console line, a close of the panel) is appended to
      an effect trace carried next to the widget state. *)

From Stdlib Require Import QArith.
From stdpp Require Import gmap strings list sorting.

Local Open Scope string_scope.
Local Open Scope list_scope.

(** ** JavaScript values *)

Module JS.

(** A JavaScript number as settings data can hold it: a finite value
    (every finite double is a rational), an infinity or NaN. *)
Inductive number : Type :=
| Finite (q : Q)
| Infinite (negative : bool)
| NaN.

(** A JSON value; [undefined] is the [None] of an [option value]. *)
#[warnings="-register-all"] Inductive value : Type :=
| Null
| Bool (b : bool)
| Num (n : number)
| Str (s : string)
| Arr (items : list value)
| Obj (fields : gmap string value).

(** [ToBoolean] on a number: zero and NaN are falsy. *)
Definition number_truthy (n : number) : bool :=
  match n with
  | Finite q => negb (Qnum q =? 0)%Z
  | Infinite _ => true
  | NaN => false
  end.

(** [ToBoolean]: [!v] is [negb (truthy v)]. *)
Definition truthy (v : option value) : bool :=
  match v with
  | None => false
  | Some Null => false
  | Some (Bool b) => b
  | Some (Num n) => number_truthy n
  | Some (Str s) => negb (String.eqb s "")
  | Some (Arr _) => true
  | Some (Obj _) => true
  end.

(** [v === true] *)
Definition is_true (v : option value) : bool :=
  match v with
  | Some (Bool true) => true
  | _ => false
  end.

(** [v !== false] *)
Definition is_not_false (v : option value) : bool :=
  match v with
  | Some (Bool false) => false
  | _ => true
  end.

(** [a || b] on strings: the empty string is the only falsy string. *)
Definition str_or (a : option string) (b : string) : string :=
  match a with
  | Some s => if String.eqb s "" then b else s
  | None => b
  end.

(** [a ?? b] on strings: only [undefined] falls through. *)
Definition str_nullish (a : option string) (b : string) : string :=
  match a with
  | Some s => s
  | None => b
  end.

(** A promise, by what eventually happens to it: it is fulfilled with a
    value, rejected with a reason, or never settles. *)
Inductive promise (A : Type) : Type :=
| Fulfilled (a : A)
| Rejected (reason : string)
| Pending.
Arguments Fulfilled {A} a.
Arguments Rejected {A} reason.
Arguments Pending {A}.

End JS.

(** ** Reading a property of an object

    [obj[key]] on a plain object finds the value the object holds under
    [key] and, failing that, the member of that name on [Object.prototype]:
    a function, or the prototype itself for ["__proto__"]. *)

Module JSObject.

(** The names every plain object inherits. *)
Definition prototypeKeys : list string :=
  ["constructor"; "hasOwnProperty"; "isPrototypeOf"; "propertyIsEnumerable";
   "toLocaleString"; "toString"; "valueOf"; "__proto__";
   "__defineGetter__"; "__defineSetter__"; "__lookupGetter__";
   "__lookupSetter__"].

(** What a property read evaluates to. *)
Inductive member : Type :=
| Data (v : JS.value)
| Inherited
| Undefined.

(** The read, given what the object itself holds under the key. *)
Definition ofOwn (own : option JS.value) (key : string) : member :=
  match own with
  | Some v => Data v
  | None => if bool_decide (key ∈ prototypeKeys) then Inherited else Undefined
  end.

(** [obj[key]] *)
Definition get (obj : gmap string JS.value) (key : string) : member :=
  ofOwn (obj !! key) key.

(** [ToBoolean]: a function and an object are truthy. *)
Definition truthy (m : member) : bool :=
  match m with
  | Data v => JS.truthy (Some v)
  | Inherited => true
  | Undefined => false
  end.

End JSObject.

(** ** The settings registry (consumed interface)

    The shapes below follow the declared TypeScript types of the registry:
    a schema is a JSON object whose [title] is a string when present and
    whose [properties] is a dictionary of property schemas; every other key
    ([description], [additionalProperties], the ['jupyter.lab.*'] hints) is
    kept as the JSON value it holds.  The dictionaries hold the own
    properties of the JSON data; a read [obj[key]] that may fall through to
    the prototype goes through [JSObject]. *)

Module ISettingRegistry.

(** [ISchema].  An entry of [properties] (an [IProperty]) is a JSON object,
    kept as the dictionary of its keys; [.default] is its ["default"] key. *)
Record ISchema : Type := {
  title : option string;
  properties : option (gmap string (gmap string JS.value));
  fields : gmap string JS.value
}.

(** What a schema itself holds under [key]: its own property of that
    name. *)
Definition schema_get (s : ISchema) (key : string) : option JS.value :=
  if String.eqb key "title" then JS.Str <$> title s
  else if String.eqb key "properties"
       then (fun m => JS.Obj (JS.Obj <$> m)) <$> properties s
       else fields s !! key.

(** [plugin.data]: the user values and the composite (defaults folded in). *)
Record ISettingBundle : Type := {
  composite : gmap string JS.value;
  user : gmap string JS.value
}.

Record IPlugin : Type := {
  id : string;
  schema : ISchema;
  data : ISettingBundle;
  raw : string;
  version : string
}.

(** What [registry.load(id)] resolves to; [modifiedFields] lists the
    fields whose value differs from the schema default. *)
Record Settings : Type := {
  settings_id : string;
  modifiedFields : list string
}.

(** The registry: [plugins] in the order [Object.keys] enumerates it, and
    the registry-level [schema]. *)
Record t : Type := {
  plugins : list (string * IPlugin);
  registry_schema : ISchema
}.

(** [Object.keys(registry.plugins).map(plugin => registry.plugins[plugin]!)] *)
Definition plugin_values (r : t) : list IPlugin := snd <$> plugins r.

End ISettingRegistry.

Import ISettingRegistry.

(** ** [Array.prototype.sort]

    The language fixes the result of [sort] under a consistent comparator:
    the elements in ascending order of the comparator, those it calls equal
    in their original order.  It is embedded as a stable insertion sort. *)

Module Array.
Section sort.
Context {A : Type} (compareFn : A -> A -> Z).

Fixpoint insert (x : A) (l : list A) : list A :=
  match l with
  | [] => [x]
  | y :: r => if (compareFn x y <=? 0)%Z then x :: y :: r else y :: insert x r
  end.

Definition sort (l : list A) : list A := foldr insert [] l.

End sort.
End Array.

(** A comparator on strings that orders by code units; it stands for
    [String.prototype.localeCompare] where a concrete collation is needed. *)
Definition ordinalCompare (a b : string) : Z :=
  match String.compare a b with
  | Lt => (-1)%Z
  | Eq => 0%Z
  | Gt => 1%Z
  end.

(** ** Observable effects

    What a handler does beyond changing its widget's fields.  [update()]
    posts an update request that the message loop delivers later; a signal
    emission, a dialog and a call of a collaborator are recorded as such. *)

Module Dialog.

(** A dialog button: the [label] option it was created with ([None] leaves
    the label to the dialog library) and whether choosing it accepts. *)
Record button : Type := { label : option string; accept : bool }.

(** [Dialog.okButton(options)] and [Dialog.cancelButton(options)] *)
Definition okButton (l : option string) : button :=
  {| label := l; accept := true |}.
Definition cancelButton (l : option string) : button :=
  {| label := l; accept := false |}.

#[global] Instance button_eq_dec : EqDecision button.
Proof. solve_decision. Defined.

(** What [showDialog] resolves to: [result.button] is the button the user
    chose. *)
Record IResult : Type := { chosen : button }.

End Dialog.

Inductive effect : Type :=
| PreventDefault
| UpdateRequest
| Emit (signal : string)
| CallConfirm (id : string)
| CallLoad (id : string)
| ConsoleLog (text : string)
| ShowDialog (title : string) (body : option string) (buttons : list Dialog.button)
| ScrollIntoView (id : string)
| Render
| Close.

#[global] Instance effect_eq_dec : EqDecision effect.
Proof. solve_decision. Defined.

(** The number of times signal [name] was emitted in a trace. *)
Definition emissions (name : string) (tr : list effect) : nat :=
  length (List.filter (fun e => bool_decide (e = Emit name)) tr).

(** ** The plugin list *)

Module PluginList.

(** *** Statics: sorting and the constructor's filter *)

Section statics.
(** [a.localeCompare(b)], supplied by the host's collation. *)
Variable localeCompare : string -> string -> Z.

(** [a.schema.title || a.id] *)
Definition sortKey (a : IPlugin) : string :=
  JS.str_or (title (schema a)) (id a).

(** [PluginList.sortPlugins(registry)] *)
Definition sortPlugins (registry : ISettingRegistry.t) : list IPlugin :=
  Array.sort (fun a b => localeCompare (sortKey a) (sortKey b))
             (plugin_values registry).

(** [schema['jupyter.lab.setting-deprecated'] === true] *)
Definition deprecated (s : ISchema) : bool :=
  JS.is_true (fields s !! "jupyter.lab.setting-deprecated").

(** [Object.keys(schema.properties || {}).length > 0] *)
Definition editable (s : ISchema) : bool :=
  match properties s with
  | Some props => (0 <? size props)%nat
  | None => false
  end.

(** [schema.additionalProperties !== false] *)
Definition extensible (s : ISchema) : bool :=
  JS.is_not_false (fields s !! "additionalProperties").

(** The predicate the constructor passes to [filter]:
    [!deprecated && (editable || extensible)]. *)
Definition hasSettings (plugin : IPlugin) : bool :=
  let s := schema plugin in
  negb (deprecated s) && (editable s || extensible s).

End statics.

(** *** The widget *)

Record t : Type := {
  registry : ISettingRegistry.t;
  _confirm : string -> JS.promise unit;
  _allPlugins : list IPlugin;
  _modifiedPlugins : list IPlugin;
  _scrollTop : option JS.number;
  _selection : string;
  (** the DOM: [scrollTop] of the first [ul] under the widget's node, when
      one is rendered *)
  ul : option JS.number
}.

Definition with_modifiedPlugins (v : list IPlugin) (w : t) : t :=
  {| registry := registry w; _confirm := _confirm w;
     _allPlugins := _allPlugins w; _modifiedPlugins := v;
     _scrollTop := _scrollTop w; _selection := _selection w; ul := ul w |}.

Definition with_scrollTop (v : option JS.number) (w : t) : t :=
  {| registry := registry w; _confirm := _confirm w;
     _allPlugins := _allPlugins w; _modifiedPlugins := _modifiedPlugins w;
     _scrollTop := v; _selection := _selection w; ul := ul w |}.

Definition with_selection (v : string) (w : t) : t :=
  {| registry := registry w; _confirm := _confirm w;
     _allPlugins := _allPlugins w; _modifiedPlugins := _modifiedPlugins w;
     _scrollTop := _scrollTop w; _selection := v; ul := ul w |}.

Definition with_ul (v : option JS.number) (w : t) : t :=
  {| registry := registry w; _confirm := _confirm w;
     _allPlugins := _allPlugins w; _modifiedPlugins := _modifiedPlugins w;
     _scrollTop := _scrollTop w; _selection := _selection w; ul := v |}.

Record IOptions : Type := {
  options_registry : ISettingRegistry.t;
  options_confirm : string -> JS.promise unit
}.

(** [new PluginList(options)] *)
Definition new (localeCompare : string -> string -> Z) (options : IOptions) : t :=
  {| registry := options_registry options;
     _confirm := options_confirm options;
     _allPlugins :=
       List.filter hasSettings (sortPlugins localeCompare (options_registry options));
     _modifiedPlugins := [];
     _scrollTop := Some (JS.Finite 0);
     _selection := "";
     ul := None |}.

(** [get scrollTop]: [this.node.querySelector('ul')?.scrollTop] *)
Definition scrollTop (w : t) : option JS.number := ul w.

(** [get selection] *)
Definition selection (w : t) : string := _selection w.

(** [set selection(selection)] *)
Definition set_selection (selection : string) (w : t) : t * list effect :=
  (with_selection selection w, [UpdateRequest]).

(** *** [updateModifiedPlugins]

    [load] gives, for a plugin identifier, the fate of the promise that
    [registry.load] returns for it during this scan. *)

(** The [for] loop over [this._allPlugins]: every load is awaited in turn,
    so a rejection leaves the loop (and the function) at that plugin. *)
Fixpoint scanPlugins (load : string -> JS.promise Settings)
    (plugins modifiedPlugins : list IPlugin)
    : JS.promise (list IPlugin) * list effect :=
  match plugins with
  | [] => (JS.Fulfilled modifiedPlugins, [])
  | plugin :: rest =>
      match load (id plugin) with
      | JS.Fulfilled settings =>
          let modifiedPlugins' :=
            if (0 <? length (modifiedFields settings))%nat
            then modifiedPlugins ++ [plugin] else modifiedPlugins in
          let '(r, tr) := scanPlugins load rest modifiedPlugins' in
          (r, CallLoad (id plugin) :: tr)
      | JS.Rejected reason => (JS.Rejected reason, [CallLoad (id plugin)])
      | JS.Pending => (JS.Pending, [CallLoad (id plugin)])
      end
  end.

(** [this._modifiedPlugins.find(p => p.id === plugin.id)] is defined *)
Definition findById (plugins : list IPlugin) (plugin : IPlugin) : bool :=
  existsb (fun p => String.eqb (id p) (id plugin)) plugins.

(** The function returns the widget, what it did and the fate of its own
    promise.  The part after the loop runs without interruption, on the
    widget as it is when the last load has settled. *)
Definition updateModifiedPlugins (load : string -> JS.promise Settings) (w : t)
    : t * list effect * JS.promise unit :=
  match scanPlugins load (_allPlugins w) [] with
  | (JS.Fulfilled modifiedPlugins, tr) =>
      if negb (length (_modifiedPlugins w) =? length modifiedPlugins)%nat
      then (with_modifiedPlugins modifiedPlugins w, tr ++ [UpdateRequest],
            JS.Fulfilled tt)
      else if existsb (fun plugin => negb (findById (_modifiedPlugins w) plugin))
                      modifiedPlugins
      then (with_modifiedPlugins modifiedPlugins w, tr ++ [UpdateRequest],
            JS.Fulfilled tt)
      else (w, tr, JS.Fulfilled tt)
  | (JS.Rejected reason, tr) => (w, tr, JS.Rejected reason)
  | (JS.Pending, tr) => (w, tr, JS.Pending)
  end.

(** [onUpdateRequest], without the scan it starts: the stored scroll
    position is written back to the list and the widget is rendered. *)
Definition onUpdateRequest (w : t) : t * list effect :=
  let w' := match ul w, _scrollTop w with
            | Some _, Some top => with_ul (Some top) w
            | _, _ => w
            end in
  (w', [Render]).

(** One update cycle: [onUpdateRequest] and the scan it starts, run to the
    end.  The scan touches no field that [onUpdateRequest] reads or writes,
    so the two traces are returned side by side. *)
Definition updateCycle (load : string -> JS.promise Settings) (w : t)
    : t * (list effect * list effect) * JS.promise unit :=
  let rendered := onUpdateRequest w in
  let scanned := updateModifiedPlugins load (fst rendered) in
  (fst (fst scanned), (snd rendered, snd (fst scanned)), snd scanned).

(** *** [_evtMousedown]

    The event, as far as the handler reads it: the [data-id] attribute of
    [event.target] ([None] when the attribute is absent) and those of its
    ancestors in turn, from the parent of the target up to and including the
    widget's own node; [ancestors] is empty when the target is that node. *)
Record MouseEvent : Type := {
  target : option string;
  ancestors : list (option string)
}.

(** [!id] on a [string | null] *)
Definition noId (id : option string) : bool :=
  match id with
  | Some s => String.eqb s ""
  | None => true
  end.

(** [while (!id && target !== this.node) { target = target.parentElement;
    id = target.getAttribute('data-id'); }] *)
Fixpoint climb (id : option string) (ancestors : list (option string))
    : option string :=
  if noId id then
    match ancestors with
    | [] => id
    | parent :: above => climb parent above
    end
  else id.

(** The identifier the handler passes to [this._confirm], if it gets
    that far. *)
Definition clicked (w : t) (event : MouseEvent) : option string :=
  if bool_decide (target event = Some (_selection w)) then None
  else
    let id := climb (target event) (ancestors event) in
    if noId id then None else id.

(** The callback given to [.then]. *)
Definition confirmed (id : string) (w : t) : t * list effect :=
  (with_selection id (with_scrollTop (scrollTop w) w),
   [Emit "changed"; UpdateRequest]).

(** The handler together with the settlement of the promise it creates.
    [.catch(() => {})] swallows a rejection; a promise that never settles
    runs neither callback. *)
Definition _evtMousedown (event : MouseEvent) (w : t) : t * list effect :=
  match clicked w event with
  | None => (w, [PreventDefault])
  | Some id =>
      match _confirm w id with
      | JS.Fulfilled _ =>
          let '(w', tr) := confirmed id w in
          (w', PreventDefault :: CallConfirm id :: tr)
      | JS.Rejected _ => (w, [PreventDefault; CallConfirm id])
      | JS.Pending => (w, [PreventDefault; CallConfirm id])
      end
  end.

(** [handleEvent(event)] *)
Definition handleEvent (type : string) (event : MouseEvent) (w : t)
    : t * list effect :=
  if String.eqb type "mousedown" then _evtMousedown event w else (w, []).

(** *** [getHint] *)

(** [properties && properties[key] && properties[key].default] on
    [registry.schema].  An object is truthy, so the chain stops only at an
    [undefined]; a member that [properties] merely inherits under [key] is a
    function or the prototype, neither of which has a [default]. *)
Definition registryDefault (key : string) (registry : ISettingRegistry.t)
    : JSObject.member :=
  match properties (registry_schema registry) with
  | None => JSObject.Undefined
  | Some props =>
      match props !! key with
      | None => JSObject.Undefined
      | Some property => JSObject.get property "default"
      end
  end.

Definition getHint (key : string) (registry : ISettingRegistry.t)
    (plugin : IPlugin) : string :=
  let hint := JSObject.get (user (data plugin)) key in
  let hint := if negb (JSObject.truthy hint)
              then JSObject.get (composite (data plugin)) key
              else hint in
  let hint := if negb (JSObject.truthy hint)
              then JSObject.ofOwn (schema_get (schema plugin) key) key
              else hint in
  let hint := if negb (JSObject.truthy hint) then registryDefault key registry
              else hint in
  match hint with
  | JSObject.Data (JS.Str s) => s
  | _ => ""
  end.

(** *** The widget as a transition system *)

Inductive action : Type :=
| Mousedown (event : MouseEvent)
| SetSelection (selection : string)
| UpdateRequested
| ScanFinished (load : string -> JS.promise Settings)
| DomChanged (ul : option JS.number).

(** One delivery of the event loop.  [DomChanged] is the part the browser
    plays: rendering creates or removes the list, the user scrolls it. *)
Definition step (a : action) (w : t) : t * list effect :=
  match a with
  | Mousedown event => _evtMousedown event w
  | SetSelection selection => set_selection selection w
  | UpdateRequested => onUpdateRequest w
  | ScanFinished load => fst (updateModifiedPlugins load w)
  | DomChanged v => (with_ul v w, [])
  end.

Fixpoint run (script : list action) (w : t) : t * list effect :=
  match script with
  | [] => (w, [])
  | a :: rest =>
      let '(w1, tr1) := step a w in
      let '(w2, tr2) := run rest w1 in
      (w2, tr1 ++ tr2)
  end.

(** The clicks of a script whose confirmation was given. *)
Fixpoint confirmedClicks (script : list action) (w : t) : nat :=
  match script with
  | [] => 0
  | a :: rest =>
      let here :=
        match a with
        | Mousedown event =>
            match clicked w event with
            | Some id =>
                match _confirm w id with JS.Fulfilled _ => 1 | _ => 0 end
            | None => 0
            end
        | _ => 0
        end in
      (here + confirmedClicks rest (fst (step a w)))%nat
  end.

End PluginList.

(** The modified plugins are always drawn from [_allPlugins], in its
    order: the constructor starts from the empty list and a scan stores a
    selection of [_allPlugins], which no handler reassigns. *)
Definition ModifiedWithinAll (w : PluginList.t) : Prop :=
  exists keep : IPlugin -> bool,
    PluginList._modifiedPlugins w = List.filter keep (PluginList._allPlugins w).

(** More precisely, a scan selects by identifier: whether it keeps a
    plugin depends on the settings loaded under the plugin's identifier. *)
Definition ModifiedByIdentifier (w : PluginList.t) : Prop :=
  exists keep : string -> bool,
    PluginList._modifiedPlugins w =
      List.filter (fun p => keep (id p)) (PluginList._allPlugins w).

(** ** The raw plugin editor

    [PluginEditor] of the raw (JSON text) editor.  [isHidden] and
    [isAttached] are the widget flags of the toolkit, [rawEditor_isDirty] is
    [this._rawEditor.isDirty] and [trans] is [this._trans.__]. *)

Module RawPluginEditor.

Record t : Type := {
  isHidden : bool;
  isAttached : bool;
  rawEditor_isDirty : bool;
  trans : string -> string
}.

(** [get isDirty] *)
Definition isDirty (w : t) : bool := rawEditor_isDirty w.

(** The [.then] callback on the dialog's result. *)
Definition leaveOrThrow (result : Dialog.IResult) : JS.promise unit :=
  if negb (Dialog.accept (Dialog.chosen result))
  then JS.Rejected "User canceled."
  else JS.Fulfilled tt.

(** [promise.then(f)] for a callback that returns or throws at once. *)
Definition andThen {A B : Type} (p : JS.promise A) (f : A -> JS.promise B)
    : JS.promise B :=
  match p with
  | JS.Fulfilled a => f a
  | JS.Rejected reason => JS.Rejected reason
  | JS.Pending => JS.Pending
  end.

(** [confirm()]; [answer] is the fate of the promise [showDialog] returns. *)
Definition confirm (answer : JS.promise Dialog.IResult) (w : t)
    : JS.promise unit * list effect :=
  if isHidden w || negb (isAttached w) || negb (isDirty w)
  then (JS.Fulfilled tt, [])
  else (andThen answer leaveOrThrow,
        [ShowDialog (trans w "You have unsaved changes.")
                    (Some (trans w "Do you want to leave without saving?"))
                    [Dialog.cancelButton (Some (trans w "Cancel"));
                     Dialog.okButton (Some (trans w "Ok"))]]).

End RawPluginEditor.

(** ** The form-based plugin editor

    [PluginEditor] of the form editor: one [SettingsFormEditorWidget] per
    plugin with settings, in sorted order. *)

Module FormPluginEditor.

Record SettingsFormEditorWidget : Type := { plugin : IPlugin }.

Record t : Type := {
  isHidden : bool;
  isAttached : bool;
  trans : string -> string;
  _editors : list SettingsFormEditorWidget
}.

(** The constructor's [plugins]: the sorted plugins that pass its filter. *)
Definition plugins (localeCompare : string -> string -> Z)
    (registry : ISettingRegistry.t) : list IPlugin :=
  List.filter (fun plugin =>
      let s := schema plugin in
      let deprecated :=
        JS.is_true (fields s !! "jupyter.lab.setting-deprecated") in
      let editable := match properties s with
                      | Some props => (0 <? size props)%nat
                      | None => false
                      end in
      let extensible := JS.is_not_false (fields s !! "additionalProperties") in
      negb deprecated && (editable || extensible))
    (PluginList.sortPlugins localeCompare registry).

(** [new PluginEditor(options)]: a new widget is neither hidden nor
    attached. *)
Definition new (localeCompare : string -> string -> Z)
    (translate : string -> string) (registry : ISettingRegistry.t) : t :=
  {| isHidden := false;
     isAttached := false;
     trans := translate;
     _editors := (fun p => {| plugin := p |}) <$> plugins localeCompare registry |}.

(** [get isDirty] *)
Definition isDirty (w : t) : bool := false.

(** [confirm(id)] *)
Definition confirm (ident : string) (answer : JS.promise Dialog.IResult) (w : t)
    : JS.promise unit * list effect :=
  let scrolled :=
    match List.find (fun editor => String.eqb (id (plugin editor)) ident)
                    (_editors w) with
    | Some editor => [ScrollIntoView (id (plugin editor))]
    | None => []
    end in
  if isHidden w || negb (isAttached w) || negb (isDirty w)
  then (JS.Fulfilled tt, scrolled)
  else (RawPluginEditor.andThen answer RawPluginEditor.leaveOrThrow,
        scrolled ++
        [ShowDialog (trans w "You have unsaved changes.")
                    (Some (trans w "Do you want to leave without saving?"))
                    [Dialog.cancelButton (Some (trans w "Cancel"));
                     Dialog.okButton (Some (trans w "Ok"))]]).

End FormPluginEditor.

(** ** The simple settings editor *)

Module SimpleSettingsEditor.

(** Modelled from the spec: the error flags of the plugin list, which the
    sources read as [this._list.hasErrors] and write through
    [this._list.setError] but do not define.  The spec describes a boolean
    per plugin that marks an unsaved or invalid edit, aggregated to gate the
    close of the panel: the panel is gated if any plugin has an error. *)
Definition setError (ident : string) (error : bool) (errors : gmap string bool)
    : gmap string bool :=
  <[ident := error]> errors.

(** Modelled from the spec: [hasErrors] holds when the flag of some plugin
    is set. *)
Definition hasErrors (errors : gmap string bool) : bool :=
  bool_decide (map_Exists (fun _ error => error = true) errors).

Record t : Type := {
  _list_errors : gmap string bool
}.

(** [onCloseRequest(msg)]; [answer] is the fate of the promise [showDialog]
    returns, [Close] is [super.onCloseRequest(msg)]. *)
Definition onCloseRequest (answer : JS.promise Dialog.IResult) (w : t)
    : list effect :=
  if hasErrors (_list_errors w) then
    ShowDialog "Unsaved changes due to validation error. Continue without saving?"
               None
               [Dialog.okButton None; Dialog.cancelButton None]
    :: match answer with
       | JS.Fulfilled value =>
           if Dialog.accept (Dialog.chosen value) then [Close] else []
       | _ => []
       end
  else [Close].

End SimpleSettingsEditor.

(** ** What the spec says, in its own words

    Definitions that follow the wording of the specification, to be compared
    with the ones embedded from the sources above. *)

Module Spec.

(** "(title ?? id)": the title, and the identifier only where no title is
    given. *)
Definition titleOrId (a : IPlugin) : string :=
  JS.str_nullish (title (schema a)) (id a).

(** A comparator is consistent when it is a total preorder in disguise. *)
Record Consistent (compareFn : string -> string -> Z) : Prop := {
  compare_flip : forall a b, Z.sgn (compareFn a b) = (- Z.sgn (compareFn b a))%Z;
  compare_trans : forall a b c,
    (compareFn a b <= 0)%Z -> (compareFn b c <= 0)%Z -> (compareFn a c <= 0)%Z
}.

(** [output] is [input] sorted stably by [compareFn] on [key]: the same
    elements, in ascending order, those of equal key in their input order. *)
Definition SortedStablyBy {A : Type} (compareFn : string -> string -> Z)
    (key : A -> string) (input output : list A) : Prop :=
  output ≡ₚ input /\
  StronglySorted (fun a b => (compareFn (key a) (key b) <= 0)%Z) output /\
  forall k : string,
    List.filter (fun a => (compareFn (key a) k =? 0)%Z) output =
    List.filter (fun a => (compareFn (key a) k =? 0)%Z) input.

(** "coerced to a string or left empty" *)
Definition coerced (m : JSObject.member) : string :=
  match m with
  | JSObject.Data (JS.Str s) => s
  | _ => ""
  end.

(** A source gives a value unless reading it yields [undefined]. *)
Definition given (m : JSObject.member) : bool :=
  match m with
  | JSObject.Undefined => false
  | _ => true
  end.

(** "is a string" *)
Definition isString (m : JSObject.member) : bool :=
  match m with
  | JSObject.Data (JS.Str _) => true
  | _ => false
  end.

(** A source counts as set unless what it gives is [undefined], [null],
    [false], zero, [NaN] or the empty string. *)
Definition isSet (m : JSObject.member) : bool :=
  match m with
  | JSObject.Undefined => false
  | JSObject.Inherited => true
  | JSObject.Data JS.Null => false
  | JSObject.Data (JS.Bool b) => b
  | JSObject.Data (JS.Num (JS.Finite q)) => negb (Qnum q =? 0)%Z
  | JSObject.Data (JS.Num (JS.Infinite _)) => true
  | JSObject.Data (JS.Num JS.NaN) => false
  | JSObject.Data (JS.Str EmptyString) => false
  | JSObject.Data (JS.Str (String _ _)) => true
  | JSObject.Data (JS.Arr _) => true
  | JSObject.Data (JS.Obj _) => true
  end.

(** "strict priority": the first of the sources, in their order, that
    passes [test] decides; nothing is found when none passes. *)
Fixpoint firstThat (test : JSObject.member -> bool)
    (sources : list JSObject.member) : JSObject.member :=
  match sources with
  | [] => JSObject.Undefined
  | m :: rest => if test m then m else firstThat test rest
  end.

(** What an object gives for a key when [own] is what it holds itself and
    [inherited] are the names it finds on its prototype. *)
Definition Gives (inherited : list string) (own : option JS.value)
    (key : string) (m : JSObject.member) : Prop :=
  (exists v, own = Some v /\ m = JSObject.Data v) \/
  (own = None /\ (key ∈ inherited) /\ m = JSObject.Inherited) \/
  (own = None /\ (key ∉ inherited) /\ m = JSObject.Undefined).

(** "the user-set value" *)
Definition UserValue (inherited : list string) (plugin : IPlugin)
    (key : string) (m : JSObject.member) : Prop :=
  Gives inherited (user (data plugin) !! key) key m.

(** "the composite (default-folded) value" *)
Definition CompositeValue (inherited : list string) (plugin : IPlugin)
    (key : string) (m : JSObject.member) : Prop :=
  Gives inherited (composite (data plugin) !! key) key m.

(** "the plugin schema's top-level value for that key": the title under
    ["title"], the object of the declared properties under ["properties"],
    and what the schema holds under any other key. *)
Definition SchemaValue (inherited : list string) (plugin : IPlugin)
    (key : string) (m : JSObject.member) : Prop :=
  (key = "title" /\ Gives inherited (JS.Str <$> title (schema plugin)) key m) \/
  (key = "properties" /\
   Gives inherited
     ((fun props => JS.Obj (JS.Obj <$> props)) <$> properties (schema plugin))
     key m) \/
  (key <> "title" /\ key <> "properties" /\
   Gives inherited (fields (schema plugin) !! key) key m).

(** "the registry schema's property default": the [default] that the
    property declared under the key in the registry schema holds. *)
Definition RegistryDefault (registry : ISettingRegistry.t) (key : string)
    (m : JSObject.member) : Prop :=
  (exists props property v,
     properties (registry_schema registry) = Some props /\
     props !! key = Some property /\
     property !! "default" = Some v /\ m = JSObject.Data v) \/
  ((forall props property,
      properties (registry_schema registry) = Some props ->
      props !! key = Some property ->
      property !! "default" = None) /\
   m = JSObject.Undefined).

(** A reading of the hint resolution: the sources in strict priority, the
    first that passes [test] deciding, coerced to a string.  The spec's
    words are [test := given] (the first value there is) or
    [test := isString] (the first string), over the values the sources
    hold themselves ([inherited := []]). *)
Definition HintReading (test : JSObject.member -> bool)
    (inherited : list string) (key : string) (registry : ISettingRegistry.t)
    (plugin : IPlugin) : Prop :=
  forall u c s r,
    UserValue inherited plugin key u ->
    CompositeValue inherited plugin key c ->
    SchemaValue inherited plugin key s ->
    RegistryDefault registry key r ->
    PluginList.getHint key registry plugin =
      coerced (firstThat test [u; c; s; r]).

(** "marked deprecated" *)
Definition MarkedDeprecated (s : ISchema) : Prop :=
  fields s !! "jupyter.lab.setting-deprecated" = Some (JS.Bool true).

(** "editable (schema.properties has at least one key)" *)
Definition Editable (s : ISchema) : Prop :=
  exists props key, properties s = Some props /\ is_Some (props !! key).

(** "extensible (schema.additionalProperties is not false)" *)
Definition Extensible (s : ISchema) : Prop :=
  fields s !! "additionalProperties" <> Some (JS.Bool false).

(** "loaded settings report at least one modified field": the load of the
    plugin's settings is fulfilled and its [modifiedFields] is not empty. *)
Definition reportsModified (load : string -> JS.promise Settings)
    (p : IPlugin) : bool :=
  match load (id p) with
  | JS.Fulfilled settings =>
      match modifiedFields settings with [] => false | _ :: _ => true end
  | _ => false
  end.

(** "loaded settings": the load of the plugin's settings is fulfilled. *)
Definition loaded (load : string -> JS.promise Settings) (p : IPlugin) : Prop :=
  exists settings, load (id p) = JS.Fulfilled settings.

(** The modified subset as the spec words it: after an update cycle it is
    exactly the filtered plugins whose loaded settings report a modified
    field. *)
Definition ModifiedSetAsStated (load : string -> JS.promise Settings)
    (w : PluginList.t) : Prop :=
  let after := fst (fst (PluginList.updateCycle load w)) in
  PluginList._modifiedPlugins after =
    List.filter (reportsModified load) (PluginList._allPlugins after).

(** The behaviour on a failed load, as the spec words it: the failure is
    caught (the scan's own promise is fulfilled) and logged, the failing
    plugin counts as not modified, and the remaining plugins are still
    loaded and classified. *)
Definition LoadFailureTolerated (load : string -> JS.promise Settings)
    (w : PluginList.t) : Prop :=
  let result := PluginList.updateModifiedPlugins load w in
  snd result = JS.Fulfilled tt /\
  (exists text, ConsoleLog text ∈ snd (fst result)) /\
  PluginList._modifiedPlugins (fst (fst result)) =
    List.filter (reportsModified load) (PluginList._allPlugins w) /\
  (forall p, p ∈ PluginList._allPlugins w -> CallLoad (id p) ∈ snd (fst result)).

(** "the user accepts": the dialog is answered with an accepting button. *)
Definition accepts (answer : JS.promise Dialog.IResult) : bool :=
  match answer with
  | JS.Fulfilled result => Dialog.accept (Dialog.chosen result)
  | _ => false
  end.

(** "the user declines": the dialog is answered with a button that does
    not accept. *)
Definition declines (answer : JS.promise Dialog.IResult) : bool :=
  match answer with
  | JS.Fulfilled result => negb (Dialog.accept (Dialog.chosen result))
  | _ => false
  end.

(** "empty properties": no property is declared. *)
Definition EmptyProperties (s : ISchema) : Prop :=
  forall props, properties s = Some props -> props = ∅.

End Spec.

(** ** Sample data *)

Module Sample.

Definition emptySchema : ISchema :=
  {| title := None; properties := None; fields := ∅ |}.

Definition emptyBundle : ISettingBundle := {| composite := ∅; user := ∅ |}.

Definition plugin (ident : string) (s : ISchema) (d : ISettingBundle) : IPlugin :=
  {| id := ident; schema := s; data := d; raw := "{}"; version := "1.0.0" |}.

Definition registryOf (ps : list IPlugin) : ISettingRegistry.t :=
  {| plugins := (fun p => (id p, p)) <$> ps; registry_schema := emptySchema |}.

(** A plugin whose title is the empty string, and one without a title. *)
Definition untitledB : IPlugin :=
  plugin "b" {| title := Some ""; properties := None; fields := ∅ |} emptyBundle.
Definition plainA : IPlugin := plugin "a" emptySchema emptyBundle.

Definition twoPlugins : ISettingRegistry.t := registryOf [untitledB; plainA].

(** A deprecated plugin and one that is neither editable nor extensible. *)
Definition deprecatedPlugin : IPlugin :=
  plugin "old"
    {| title := Some "Old"; properties := None;
       fields := {[ "jupyter.lab.setting-deprecated" := JS.Bool true ]} |}
    emptyBundle.
Definition closedPlugin : IPlugin :=
  plugin "closed"
    {| title := Some "Closed"; properties := Some ∅;
       fields := {[ "additionalProperties" := JS.Bool false ]} |}
    emptyBundle.

Definition mixedRegistry : ISettingRegistry.t :=
  registryOf [deprecatedPlugin; closedPlugin; plainA].

Definition mixedOptions : PluginList.IOptions :=
  {| PluginList.options_registry := mixedRegistry;
     PluginList.options_confirm := fun _ => JS.Fulfilled tt |}.

(** The scenario of the spec: plugin A declares a string property [x] with
    default ["foo"], and the user has set it to ["bar"]. *)
Definition pluginA : IPlugin :=
  plugin "b.modified"
    {| title := Some "A";
       properties := Some {[ "x" := {[ "type" := JS.Str "string";
                                        "default" := JS.Str "foo" ]} ]};
       fields := ∅ |}
    {| composite := {[ "x" := JS.Str "bar" ]};
       user := {[ "x" := JS.Str "bar" ]} |}.

(** A plugin whose settings cannot be loaded; its title sorts before A. *)
Definition unloadable : IPlugin :=
  plugin "a.unloadable"
    {| title := Some "0"; properties := None; fields := ∅ |} emptyBundle.

Definition scenarioOptions : PluginList.IOptions :=
  {| PluginList.options_registry := registryOf [pluginA; unloadable; plainA];
     PluginList.options_confirm := fun _ => JS.Fulfilled tt |}.

Definition scenarioList : PluginList.t :=
  PluginList.new ordinalCompare scenarioOptions.

(** Every load is fulfilled; only A reports a modified field. *)
Definition loadAll (ident : string) : JS.promise Settings :=
  JS.Fulfilled {| settings_id := ident;
                  modifiedFields := if String.eqb ident "b.modified"
                                    then ["x"] else [] |}.

(** As [loadAll], but the registry rejects the load of ["a.unloadable"]. *)
Definition loadFailing (ident : string) : JS.promise Settings :=
  if String.eqb ident "a.unloadable" then JS.Rejected "offline"
  else loadAll ident.

(** A list over [mixedRegistry] whose confirmation hook refuses plugin
    ["a"] only when [refuse] is set, and a click on a child of the item
    of plugin ["a"]. *)
Definition listWith (refuse : bool) : PluginList.t :=
  PluginList.new ordinalCompare
    {| PluginList.options_registry := mixedRegistry;
       PluginList.options_confirm := fun _ =>
         if refuse then JS.Rejected "User canceled." else JS.Fulfilled tt |}.

Definition clickOnA : PluginList.MouseEvent :=
  {| PluginList.target := None;
     PluginList.ancestors := [Some "a"; None; None] |}.

(** The answers a user can give to a dialog. *)
Definition sayOk : JS.promise Dialog.IResult :=
  JS.Fulfilled {| Dialog.chosen := Dialog.okButton None |}.
Definition sayCancel : JS.promise Dialog.IResult :=
  JS.Fulfilled {| Dialog.chosen := Dialog.cancelButton None |}.

(** A settings editor in which the form of plugin ["a"] holds an invalid
    edit. *)
Definition editorWithError : SimpleSettingsEditor.t :=
  {| SimpleSettingsEditor._list_errors :=
       SimpleSettingsEditor.setError "a" true
         (SimpleSettingsEditor.setError "b.modified" false ∅) |}.

(** A raw editor that is shown, attached and dirty. *)
Definition dirtyEditor : RawPluginEditor.t :=
  {| RawPluginEditor.isHidden := false;
     RawPluginEditor.isAttached := true;
     RawPluginEditor.rawEditor_isDirty := true;
     RawPluginEditor.trans := fun text => text |}.

(** The scenario of the spec with a registry-level default for the icon
    label, for [getHint]. *)
Definition hintRegistry : ISettingRegistry.t :=
  {| plugins := [(id pluginA, pluginA)];
     registry_schema :=
       {| title := None;
          properties :=
            Some {[ "jupyter.lab.setting-icon-label" :=
                      {[ "default" := JS.Str "Plugin" ]} ]};
          fields := ∅ |} |}.

End Sample.

(** ** More sample data *)

Module Scene.

(** The list of [Sample.listWith false] after plugin ["a"] was selected by
    a confirmed click. *)
Definition selectedA : PluginList.t :=
  fst (PluginList._evtMousedown Sample.clickOnA (Sample.listWith false)).

(** A click that lands on the item of plugin ["a"] itself. *)
Definition clickOnItemA : PluginList.MouseEvent :=
  {| PluginList.target := Some "a";
     PluginList.ancestors := [None; None] |}.

(** The list of [Sample.listWith false], rendered and scrolled down. *)
Definition scrolled : PluginList.t :=
  PluginList.with_ul (Some (JS.Finite 120)) (Sample.listWith false).

End Scene.

(** ** Rendering the plugin list *)

#[global] Instance Q_eq_dec : EqDecision Q.
Proof. solve_decision. Defined.

#[global] Instance number_eq_dec : EqDecision JS.number.
Proof. solve_decision. Defined.

#[global] Instance value_eq_dec : EqDecision JS.value.
Proof.
  refine (fix go (x y : JS.value) {struct x} : Decision (x = y) :=
    let _ : EqDecision JS.value := @go in
    match x, y with
    | JS.Null, JS.Null => left _
    | JS.Bool a, JS.Bool b => cast_if (decide (a = b))
    | JS.Num a, JS.Num b => cast_if (decide (a = b))
    | JS.Str a, JS.Str b => cast_if (decide (a = b))
    | JS.Arr a, JS.Arr b => cast_if (decide (a = b))
    | JS.Obj a, JS.Obj b => cast_if (decide (a = b))
    | _, _ => right _
    end); abstract congruence.
Defined.

#[global] Instance ISchema_eq_dec : EqDecision ISchema.
Proof. solve_decision. Defined.

#[global] Instance ISettingBundle_eq_dec : EqDecision ISettingBundle.
Proof. solve_decision. Defined.

#[global] Instance IPlugin_eq_dec : EqDecision IPlugin.
Proof. solve_decision. Defined.

Module PluginListView.

Definition ICON_KEY : string := "jupyter.lab.setting-icon".
Definition ICON_CLASS_KEY : string := "jupyter.lab.setting-icon-class".
Definition ICON_LABEL_KEY : string := "jupyter.lab.setting-icon-label".

(** The [icon] argument of [LabIcon.resolveReact]: a named icon, the
    default [settingsIcon], or [undefined]. *)
Inductive IconProp : Type :=
| IconNamed (name : string)
| IconSettings
| IconUndefined.

(** One [<li>] of the list, by the attributes and children [mapPlugins]
    computes for it. *)
Record ListItem : Type := {
  className : string;
  data_id : string;
  key : string;
  itemTitle : string;
  selectedIndicator : bool;
  icon : IconProp;
  iconClass : string;
  iconTitle : string;
  label : string
}.

Definition newline : string := String (Ascii.ascii_of_nat 10) "".

(** [typeof v === 'string' ? trans._p('schema', v) : fallback] *)
Definition translated (_p : string -> string -> string) (v : option JS.value)
    (fallback : string) : string :=
  match v with
  | Some (JS.Str s) => _p "schema" s
  | _ => fallback
  end.

(** [mapPlugins(plugin)]; [_p] is [trans._p] of the translation bundle. *)
Definition mapPlugins (_p : string -> string -> string) (w : PluginList.t)
    (plugin : IPlugin) : ListItem :=
  let title := translated _p (JS.Str <$> title (schema plugin)) (id plugin) in
  let description :=
    translated _p (fields (schema plugin) !! "description") "" in
  let hintIcon := PluginList.getHint ICON_KEY (PluginList.registry w) plugin in
  let hintClass := PluginList.getHint ICON_CLASS_KEY (PluginList.registry w) plugin in
  let hintTitle := PluginList.getHint ICON_LABEL_KEY (PluginList.registry w) plugin in
  let selected := String.eqb (id plugin) (PluginList.selection w) in
  {| className := if selected then "jp-mod-selected" else "";
     data_id := id plugin;
     key := id plugin;
     itemTitle := description ++ newline ++ id plugin ++ newline ++ version plugin;
     selectedIndicator := selected;
     icon := if negb (String.eqb hintIcon "") then IconNamed hintIcon
             else if negb (String.eqb hintClass "") then IconUndefined
             else IconSettings;
     iconClass := hintClass;
     iconTitle := hintTitle;
     label := title |}.

(** What [render] returns: the "Modified" section when it has items, and
    the "Settings" section. *)
Record View : Type := {
  modifiedSection : option (list ListItem);
  settingsSection : list ListItem
}.

(** [this._modifiedPlugins.includes(plugin)].  The plugin objects of a
    registry are compared by reference; they are the records of the
    registry's table, which differ in their [id]. *)
Definition includes (plugins : list IPlugin) (plugin : IPlugin) : bool :=
  bool_decide (plugin ∈ plugins).

(** [render()] *)
Definition render (_p : string -> string -> string) (w : PluginList.t)
    : View * list effect :=
  let modifiedItems := mapPlugins _p w <$> PluginList._modifiedPlugins w in
  let otherItems :=
    mapPlugins _p w <$>
      List.filter (fun plugin => negb (includes (PluginList._modifiedPlugins w) plugin))
                  (PluginList._allPlugins w) in
  ({| modifiedSection :=
        if (0 <? length modifiedItems)%nat then Some modifiedItems else None;
      settingsSection := otherItems |},
   [ConsoleLog "render"]).

(** All the items of a view, section after section. *)
Definition items (v : View) : list ListItem :=
  from_option (fun l => l) [] (modifiedSection v) ++ settingsSection v.

(** The items of a view that are marked as selected. *)
Definition selectedItems (v : View) : list ListItem :=
  List.filter (fun item => String.eqb (className item) "jp-mod-selected") (items v).

End PluginListView.

(** ** The raw plugin editor: instructions and editor

    The part of the raw [PluginEditor] that decides which of its two
    children is visible.  A settings object is compared by reference
    ([===]); [settings_ref] stands for the reference and [settings_plugin]
    for its [id]. *)

Module RawPluginEditorLayout.

Record ISettings : Type := { settings_ref : nat; settings_plugin : string }.

#[global] Instance ISettings_eq_dec : EqDecision ISettings.
Proof. solve_decision. Defined.

Record t : Type := {
  instructions_isHidden : bool;
  rawEditor_isHidden : bool;
  rawEditor_settings : option ISettings;
  _settings : option ISettings
}.

(** The state the constructor leaves: the instructions widget is new and
    so not hidden; the raw editor comes from its own constructor, with
    whatever visibility and settings that gives it. *)
Definition new (rawHidden : bool) (rawSettings : option ISettings) : t :=
  {| instructions_isHidden := false;
     rawEditor_isHidden := rawHidden;
     rawEditor_settings := rawSettings;
     _settings := None |}.

(** [get settings] *)
Definition settings (w : t) : option ISettings := _settings w.

(** [set settings(settings)]; the second component tells whether
    [this.update()] was called. *)
Definition set_settings (settings : option ISettings) (w : t) : t * bool :=
  if bool_decide (_settings w = settings) then (w, false)
  else
    let '(instructionsHidden, rawHidden) :=
      match settings with
      | None => (false, true)
      | Some _ =>
          if negb (instructions_isHidden w) then (true, false)
          else (instructions_isHidden w, rawEditor_isHidden w)
      end in
    ({| instructions_isHidden := instructionsHidden;
        rawEditor_isHidden := rawHidden;
        rawEditor_settings := settings;
        _settings := settings |}, true).

(** [onUpdateRequest(msg)] *)
Definition onUpdateRequest (w : t) : t :=
  match _settings w with
  | None =>
      {| instructions_isHidden := false;
         rawEditor_isHidden := true;
         rawEditor_settings := rawEditor_settings w;
         _settings := _settings w |}
  | Some _ => w
  end.

(** [get state]'s [plugin]: [this._settings ? this._settings.id : ''] *)
Definition state_plugin (w : t) : string :=
  match _settings w with
  | Some s => settings_plugin s
  | None => ""
  end.

Inductive action : Type :=
| SetSettings (settings : option ISettings)
| UpdateRequested.

Definition step (a : action) (w : t) : t :=
  match a with
  | SetSettings settings => fst (set_settings settings w)
  | UpdateRequested => onUpdateRequest w
  end.

Definition run (script : list action) (w : t) : t := foldl (fun w a => step a w) w script.

End RawPluginEditorLayout.

(** ** The settings metadata editor

    [SettingsMetadataEditor.initializeMetadata].  The fields it reads and
    writes are those of the metadata editor it extends.  A JavaScript object
    whose keys are enumerated ([for ... in]) is an association list in
    enumeration order; keys are looked up among own properties. *)

Module SettingsMetadataEditor.

(** [this._settings.schema], as far as the method reads it. *)
Record MetaSchema : Type := {
  description : option JS.value;
  setting_icon : option JS.value;
  properties : option (list (string * gmap string JS.value))
}.

(** [this._settings]: an object whose [schema] may be missing. *)
Record MetaSettings : Type := { schema : option MetaSchema }.

(** An entry of the schema the method builds:
    [{ title: options.title, type: 'string', uihints: {} }]. *)
Record SchemaProperty : Type := {
  sp_title : option JS.value;
  sp_type : string;
  sp_uihints : gmap string JS.value
}.

(** [metadata.metadata]: its [tags] and its other keys. *)
Record MetadataBody : Type := {
  tags : option (list string);
  others : gmap string JS.value
}.

(** An element of [this.allMetadata]. *)
Record IMetadata : Type := {
  md_name : string;
  md_display_name : option string;
  md_metadata : MetadataBody
}.

Record t : Type := {
  _settings : option MetaSettings;
  editorSchema : list (string * SchemaProperty);
  referenceURL : option string;
  schemaDisplayName : option JS.value;
  requiredFields : list string;
  name : option string;
  title_label : string;
  schemaPropertiesByCategory : gmap string (list string);
  allMetadata : list IMetadata;
  allTags : list string;
  metadata : option MetadataBody;
  displayName : option string
}.

(** [obj[key] = v] on an object in enumeration order: an existing key keeps
    its place, a new key comes last. *)
Fixpoint assign {A : Type} (key : string) (v : A) (obj : list (string * A))
    : list (string * A) :=
  match obj with
  | [] => [(key, v)]
  | (k, old) :: rest =>
      if String.eqb k key then (k, v) :: rest else (k, old) :: assign key v rest
  end.

(** The loop [for (const prop in settings.properties)] that fills
    [schema.properties.metadata.properties]. *)
Definition buildSchema (props : list (string * gmap string JS.value))
    : list (string * SchemaProperty) :=
  foldl (fun built '(prop, options) =>
           assign prop {| sp_title := options !! "title";
                          sp_type := "string";
                          sp_uihints := ∅ |} built)
        [] props.

Section categories.
(** [ToString] of the language on a value that is not a string, a boolean
    or [null]; it is needed where a value is used as a property key or
    inside a template. *)
Variable ToString : JS.value -> string.

Definition toString (v : option JS.value) : string :=
  match v with
  | None => "undefined"
  | Some JS.Null => "null"
  | Some (JS.Bool true) => "true"
  | Some (JS.Bool false) => "false"
  | Some (JS.Str s) => s
  | Some other => ToString other
  end.

(** One turn of the loop that finds the category of each schema
    property. *)
Definition categorize (byCategory : gmap string (list string))
    (entry : string * SchemaProperty) : gmap string (list string) :=
  let '(schemaProperty, sp) := entry in
  let category := sp_uihints sp !! "category" in
  if negb (JS.truthy category)
  then alter (fun l => l ++ [schemaProperty]) "_noCategory" byCategory
  else
    let key := toString category in
    match byCategory !! key with
    | Some _ => alter (fun l => l ++ [schemaProperty]) key byCategory
    | None => <[key := [schemaProperty]]> byCategory
    end.

(** [!this.name] *)
Definition noName (n : option string) : bool :=
  match n with
  | Some s => String.eqb s ""
  | None => true
  end.

(** The body of the [try] block for a schema that is present. *)
Definition readSchema (settings : MetaSchema) (w : t) : t :=
  let built := match properties settings with
               | Some props => buildSchema props
               | None => []
               end in
  {| _settings := _settings w;
     editorSchema := built;
     referenceURL := Some "";
     schemaDisplayName := description settings;
     requiredFields := [];
     name := name w;
     title_label := if noName (name w)
                    then "New " ++ toString (description settings)
                    else title_label w;
     schemaPropertiesByCategory :=
       foldl categorize {[ "_noCategory" := [] ]} built;
     allMetadata := allMetadata w;
     allTags := allTags w;
     metadata := metadata w;
     displayName := displayName w |}.

End categories.

(** [if (!this.allTags.includes(tag)) this.allTags.push(tag)] over the
    tags of one entry. *)
Definition collectTags (allTags entryTags : list string) : list string :=
  foldl (fun acc tag => if bool_decide (tag ∈ acc) then acc else acc ++ [tag])
        allTags entryTags.

(** What the loop over [this.allMetadata] carries from entry to entry. *)
Record Selected : Type := {
  sel_allTags : list string;
  sel_metadata : option MetadataBody;
  sel_displayName : option string;
  sel_label : string
}.

(** One turn of the loop over [this.allMetadata]: the entry as the turn
    leaves it, and the fields of the editor. *)
Definition visit (editorName : string) (acc : Selected) (entry : IMetadata)
    : IMetadata * Selected :=
  let '(entry', allTags') :=
    match tags (md_metadata entry) with
    | Some ts => (entry, collectTags (sel_allTags acc) ts)
    | None =>
        ({| md_name := md_name entry;
            md_display_name := md_display_name entry;
            md_metadata := {| tags := Some [];
                              others := others (md_metadata entry) |} |},
         sel_allTags acc)
    end in
  if String.eqb editorName (md_name entry)
  then (entry', {| sel_allTags := allTags';
                   sel_metadata := Some (md_metadata entry');
                   sel_displayName := md_display_name entry;
                   sel_label := default "" (md_display_name entry) |})
  else (entry', {| sel_allTags := allTags';
                   sel_metadata := sel_metadata acc;
                   sel_displayName := sel_displayName acc;
                   sel_label := sel_label acc |}).

Fixpoint visitAll (editorName : string) (acc : Selected) (entries : list IMetadata)
    : list IMetadata * Selected :=
  match entries with
  | [] => ([], acc)
  | entry :: rest =>
      let '(entry', acc') := visit editorName acc entry in
      let '(rest', acc'') := visitAll editorName acc' rest in
      (entry' :: rest', acc'')
  end.

(** The part after the [try] block. *)
Definition readMetadata (w : t) : t :=
  match name w with
  | Some editorName =>
      if String.eqb editorName "" then
        {| _settings := _settings w; editorSchema := editorSchema w;
           referenceURL := referenceURL w;
           schemaDisplayName := schemaDisplayName w;
           requiredFields := requiredFields w; name := name w;
           title_label := title_label w;
           schemaPropertiesByCategory := schemaPropertiesByCategory w;
           allMetadata := allMetadata w; allTags := allTags w;
           metadata := metadata w; displayName := Some "" |}
      else
        let visited :=
          visitAll editorName
            {| sel_allTags := allTags w; sel_metadata := metadata w;
               sel_displayName := displayName w; sel_label := title_label w |}
            (allMetadata w) in
        {| _settings := _settings w; editorSchema := editorSchema w;
           referenceURL := referenceURL w;
           schemaDisplayName := schemaDisplayName w;
           requiredFields := requiredFields w; name := name w;
           title_label := sel_label (snd visited);
           schemaPropertiesByCategory := schemaPropertiesByCategory w;
           allMetadata := fst visited; allTags := sel_allTags (snd visited);
           metadata := sel_metadata (snd visited);
           displayName := sel_displayName (snd visited) |}
  | None =>
      {| _settings := _settings w; editorSchema := editorSchema w;
         referenceURL := referenceURL w;
         schemaDisplayName := schemaDisplayName w;
         requiredFields := requiredFields w; name := name w;
         title_label := title_label w;
         schemaPropertiesByCategory := schemaPropertiesByCategory w;
         allMetadata := allMetadata w; allTags := allTags w;
         metadata := metadata w; displayName := Some "" |}
  end.

(** [initializeMetadata()].  Reading a property of a missing schema throws
    a [TypeError], which the [catch] logs; [ConsoleLog "TypeError"] stands
    for the logged error object. *)
Definition initializeMetadata (ToString : JS.value -> string) (w : t)
    : t * list effect :=
  match _settings w with
  | None => (w, [ConsoleLog "No settings"])
  | Some settings =>
      match schema settings with
      | Some s => (readMetadata (readSchema ToString s w), [UpdateRequest])
      | None => (readMetadata w, [ConsoleLog "TypeError"; UpdateRequest])
      end
  end.

End SettingsMetadataEditor.

(** Sample data for the metadata editor and the raw editor's layout. *)

Module MetadataScene.

Definition entry (n : string) (shown : option string) (ts : option (list string))
    : SettingsMetadataEditor.IMetadata :=
  {| SettingsMetadataEditor.md_name := n;
     SettingsMetadataEditor.md_display_name := shown;
     SettingsMetadataEditor.md_metadata :=
       {| SettingsMetadataEditor.tags := ts;
          SettingsMetadataEditor.others := ∅ |} |}.

Definition themeSchema : SettingsMetadataEditor.MetaSchema :=
  {| SettingsMetadataEditor.description := Some (JS.Str "Theme");
     SettingsMetadataEditor.setting_icon := None;
     SettingsMetadataEditor.properties :=
       Some [("theme", {[ "title" := JS.Str "Selected Theme" ]});
             ("overrides", ∅)] |}.

(** An editor named ["python"] over three entries, two of which carry that
    name. *)
Definition editor (settings : option SettingsMetadataEditor.MetaSettings)
    : SettingsMetadataEditor.t :=
  {| SettingsMetadataEditor._settings := settings;
     SettingsMetadataEditor.editorSchema := [];
     SettingsMetadataEditor.referenceURL := None;
     SettingsMetadataEditor.schemaDisplayName := None;
     SettingsMetadataEditor.requiredFields := ["name"];
     SettingsMetadataEditor.name := Some "python";
     SettingsMetadataEditor.title_label := "";
     SettingsMetadataEditor.schemaPropertiesByCategory := ∅;
     SettingsMetadataEditor.allMetadata :=
       [entry "python" (Some "Python 2") (Some ["legacy"; "kernel"]);
        entry "r" None None;
        entry "python" (Some "Python 3") (Some ["kernel"; "default"])];
     SettingsMetadataEditor.allTags := ["kernel"];
     SettingsMetadataEditor.metadata := None;
     SettingsMetadataEditor.displayName := None |}.

Definition withSchema : SettingsMetadataEditor.t :=
  editor (Some {| SettingsMetadataEditor.schema := Some themeSchema |}).

Definition withoutSchema : SettingsMetadataEditor.t :=
  editor (Some {| SettingsMetadataEditor.schema := None |}).

(** Stands for the language's [ToString] where one is needed. *)
Definition plainToString (v : JS.value) : string := "[object Object]".

Definition settingsA : RawPluginEditorLayout.ISettings :=
  {| RawPluginEditorLayout.settings_ref := 1;
     RawPluginEditorLayout.settings_plugin := "a" |}.

End MetadataScene.

(** ** The simple settings editor: loading the panel's settings *)

Module SimpleSettingsEditorSetup.

(** The settlement of [Promise.all(promises)] as far as [.then] observes
    it: the values, in the order of the promises, when every one of them is
    fulfilled. *)
Fixpoint allFulfilled {A : Type} (promises : list (JS.promise A))
    : option (list A) :=
  match promises with
  | [] => Some []
  | JS.Fulfilled a :: rest =>
      match allFulfilled rest with
      | Some values => Some (a :: values)
      | None => None
      end
  | _ :: _ => None
  end.

(** The plugins the constructor loads: [sortPlugins] filtered. *)
Definition plugins (localeCompare : string -> string -> Z)
    (registry : ISettingRegistry.t) : list IPlugin :=
  List.filter (fun plugin =>
      let s := schema plugin in
      let deprecated :=
        JS.is_true (fields s !! "jupyter.lab.setting-deprecated") in
      let editable := match properties s with
                      | Some props => (0 <? size props)%nat
                      | None => false
                      end in
      let extensible := JS.is_not_false (fields s !! "additionalProperties") in
      negb deprecated && (editable || extensible))
    (PluginList.sortPlugins localeCompare registry).

(** The constructor, from [Promise.all] on: the loads it requests, each
    started when [map] reaches its plugin, and the [settings] of the
    [SettingsPanel] it adds once all of them are fulfilled ([None] when the
    panel is never added). *)
Definition loadPanel (localeCompare : string -> string -> Z)
    (registry : ISettingRegistry.t) (load : string -> JS.promise Settings)
    : list effect * option (list Settings) :=
  let wanted := plugins localeCompare registry in
  ((fun plugin => CallLoad (id plugin)) <$> wanted,
   allFulfilled ((fun plugin => load (id plugin)) <$> wanted)).

End SimpleSettingsEditorSetup.

(** ** The settings panel: selection by scrolling

    [updateSelectedPlugin] of [SettingsPanel].  The numbers are layout
    metrics that the browser supplies; the comparison of them in the [if]
    is floating-point arithmetic and is taken as a parameter, the guards in
    front of it are embedded as written. *)

Module SettingsPanel.

(** [ref.current] of an editor: its [offsetTop] and [scrollHeight]. *)
Record ElementMetrics : Type := {
  offsetTop : JS.number;
  scrollHeight : JS.number
}.

(** [wrapperRef.current]. *)
Record WrapperMetrics : Type := {
  wrapper_scrollTop : JS.number;
  wrapper_offsetTop : JS.number;
  wrapper_clientHeight : JS.number
}.

Section scroll.
(** The arithmetic part of the condition, for a wrapper and an editor that
    are both mounted:
    [scrollTop + 1 >= wrapperOffsetTop && (offsetTop >= scrollTop ||
     (offsetTop < scrollTop &&
      offsetTop + scrollHeight > scrollTop + clientHeight))]. *)
Variable inView : WrapperMetrics -> ElementMetrics -> bool.

(** The condition of the [if] for one editor. *)
Definition selects (wrapper : option WrapperMetrics)
    (current : option ElementMetrics) : bool :=
  match wrapper, current with
  | Some w, Some e =>
      JS.number_truthy (wrapper_scrollTop w) &&
      JS.number_truthy (scrollHeight e) &&
      inView w e
  | _, _ => false
  end.

(** [updateSelectedPlugin()]: the identifier passed to [onSelect], if any.
    [editorRefs] lists the refs in the order of the [for ... in]. *)
Fixpoint updateSelectedPlugin (wrapper : option WrapperMetrics)
    (editorRefs : list (string * option ElementMetrics)) : option string :=
  match editorRefs with
  | [] => None
  | (refId, current) :: rest =>
      if selects wrapper current then Some refId
      else updateSelectedPlugin wrapper rest
  end.

(** A scroll event of the panel inside the simple settings editor, whose
    [onSelect] is [(id) => (this._list.selection = id)]. *)
Definition onScroll (wrapper : option WrapperMetrics)
    (editorRefs : list (string * option ElementMetrics))
    (pluginList : PluginList.t) : PluginList.t * list effect :=
  match updateSelectedPlugin wrapper editorRefs with
  | Some refId => PluginList.set_selection refId pluginList
  | None => (pluginList, [])
  end.

End scroll.
End SettingsPanel.

(** ** The text input of the form editor

    The [TextInput] component: its props as declared, its three pieces of
    state and the handlers that change them. *)

Module TextInput.

Record Props : Type := {
  defaultError : option string;
  defaultValue : string;
  required : bool;
  secure : bool
}.

Record State : Type := {
  error : option string;
  value : string;
  showPassword : bool
}.

(** The state of the first render: [useState(defaultError)],
    [useState(defaultValue)], [useState(false)]. *)
Definition mount (props : Props) : State :=
  {| error := defaultError props;
     value := defaultValue props;
     showPassword := false |}.

Inductive event : Type :=
| Change (newValue : string)
| ToggleShowPassword
| Rerender (props : Props).

(** One event: the props and state after it, and the values passed to the
    [onChange] prop.  A re-render with new props runs the two effects, each
    when its dependency has changed. *)
Definition handle (e : event) (props : Props) (state : State)
    : Props * State * list string :=
  match e with
  | Change newValue =>
      (props,
       {| error := if required props && String.eqb newValue ""
                   then Some "This field is required." else error state;
          value := newValue;
          showPassword := showPassword state |},
       [newValue])
  | ToggleShowPassword =>
      (props,
       {| error := error state;
          value := value state;
          showPassword := negb (showPassword state) |},
       [])
  | Rerender props' =>
      (props',
       {| error := if bool_decide (defaultError props' = defaultError props)
                   then error state else defaultError props';
          value := if bool_decide (defaultValue props' = defaultValue props)
                   then value state else defaultValue props';
          showPassword := showPassword state |},
       [])
  end.

Fixpoint handleAll (events : list event) (props : Props) (state : State)
    : Props * State * list string :=
  match events with
  | [] => (props, state, [])
  | e :: rest =>
      let here := handle e props state in
      let later := handleAll rest (fst (fst here)) (snd (fst here)) in
      (fst (fst later), snd (fst later), snd here ++ snd later)
  end.

(** [!!error] *)
Definition showsError (state : State) : bool :=
  match error state with
  | Some text => negb (String.eqb text "")
  | None => false
  end.

(** The [type] of the text field:
    [showPassword || !secure ? 'text' : 'password']. *)
Definition inputType (props : Props) (state : State) : string :=
  if showPassword state || negb (secure props) then "text" else "password".

(** The values typed, in order. *)
Definition typed (events : list event) : list string :=
  omap (fun e => match e with Change v => Some v | _ => None end) events.

End TextInput.

(** Sample data for the panel and the text input. *)

Module PanelScene.

Definition metrics (top height : Z) : SettingsPanel.ElementMetrics :=
  {| SettingsPanel.offsetTop := JS.Finite (inject_Z top);
     SettingsPanel.scrollHeight := JS.Finite (inject_Z height) |}.

Definition wrapperAt (top : Z) : SettingsPanel.WrapperMetrics :=
  {| SettingsPanel.wrapper_scrollTop := JS.Finite (inject_Z top);
     SettingsPanel.wrapper_offsetTop := JS.Finite 0;
     SettingsPanel.wrapper_clientHeight := JS.Finite (inject_Z 600) |}.

Definition twoEditors : list (string * option SettingsPanel.ElementMetrics) :=
  [("a", Some (metrics 0 400)); ("b.modified", Some (metrics 400 900))].

(** Stands for the comparison of the metrics where one is needed. *)
Definition alwaysInView (w : SettingsPanel.WrapperMetrics)
    (e : SettingsPanel.ElementMetrics) : bool := true.

Definition requiredField : TextInput.Props :=
  {| TextInput.defaultError := None;
     TextInput.defaultValue := "8888";
     TextInput.required := true;
     TextInput.secure := false |}.

End PanelScene.

(** ** Sample data for the rendering hints *)

Module HintScene.

(** [ICON_LABEL_KEY] *)
Definition LABEL : string := "jupyter.lab.setting-icon-label".

(** A plugin whose schema names the icon label at its top level and whose
    data hold nothing. *)
Definition labelled : IPlugin :=
  Sample.plugin "labelled"
    {| title := Some "Labelled"; properties := None;
       fields := {[ LABEL := JS.Str "From schema" ]} |}
    Sample.emptyBundle.

(** As [labelled], but the user has blanked the label; the composite data
    fold the user's value in. *)
Definition blanked : IPlugin :=
  Sample.plugin "blanked"
    {| title := Some "Blanked"; properties := None;
       fields := {[ LABEL := JS.Str "From schema" ]} |}
    {| composite := {[ LABEL := JS.Str "" ]};
       user := {[ LABEL := JS.Str "" ]} |}.

(** As [labelled], but the defaults folded into the composite data give
    the label as a number. *)
Definition numbered : IPlugin :=
  Sample.plugin "numbered"
    {| title := Some "Numbered"; properties := None;
       fields := {[ LABEL := JS.Str "From schema" ]} |}
    {| composite := {[ LABEL := JS.Num (JS.Finite 5) ]}; user := ∅ |}.

(** A plugin whose composite data hold a string under ["constructor"]. *)
Definition constructed : IPlugin :=
  Sample.plugin "constructed" Sample.emptySchema
    {| composite := {[ "constructor" := JS.Str "x" ]}; user := ∅ |}.

End HintScene.

(** ** Sample data for the update cycle *)

Module CycleScene.

(** As [Sample.loadAll], but the registry rejects the load of ["a"], the
    last plugin of the list. *)
Definition lastRejected (ident : string) : JS.promise Settings :=
  if String.eqb ident "a" then JS.Rejected "offline"
  else Sample.loadAll ident.

(** The list of the scenario after a scan whose loads were all fulfilled. *)
Definition scanned : PluginList.t :=
  fst (PluginList.run [PluginList.ScanFinished Sample.loadAll]
         Sample.scenarioList).

(** The user has reverted every setting, and the load of ["a"] is
    rejected. *)
Definition noneModified (ident : string) : JS.promise Settings :=
  if String.eqb ident "a" then JS.Rejected "offline"
  else JS.Fulfilled {| settings_id := ident; modifiedFields := [] |}.

End CycleScene.

(** * Properties *)

(** ** Sorting *)

Section sort_facts.
Context {A : Type} (compareFn : A -> A -> Z).

Lemma insert_perm (x : A) (l : list A) : Array.insert compareFn x l ≡ₚ x :: l.
Proof.
  induction l as [|y r IH]; simpl; [done|].
  destruct (compareFn x y <=? 0)%Z; [done|].
  rewrite IH. apply Permutation_swap.
Qed.

Lemma sort_perm (l : list A) : Array.sort compareFn l ≡ₚ l.
Proof.
  induction l as [|x l IH]; simpl; [done|].
  fold (Array.sort compareFn l). by rewrite insert_perm, IH.
Qed.

Lemma elem_of_sort (x : A) (l : list A) : x ∈ Array.sort compareFn l <-> x ∈ l.
Proof. by rewrite sort_perm. Qed.

(** The comparator, seen as an order on the elements. *)
Hypothesis flip : forall a b, Z.sgn (compareFn a b) = (- Z.sgn (compareFn b a))%Z.
Hypothesis trans : forall a b c,
  (compareFn a b <= 0)%Z -> (compareFn b c <= 0)%Z -> (compareFn a c <= 0)%Z.

Lemma insert_sorted (x : A) (l : list A) :
  StronglySorted (fun a b => (compareFn a b <= 0)%Z) l ->
  StronglySorted (fun a b => (compareFn a b <= 0)%Z) (Array.insert compareFn x l).
Proof.
  induction 1 as [|y r Hr IH Hy]; simpl.
  - repeat constructor.
  - destruct (compareFn x y <=? 0)%Z eqn:E.
    + apply Z.leb_le in E. constructor; [by constructor|].
      constructor; [done|].
      eapply Forall_impl; [exact Hy|]. intros z Hz. by apply (trans x y z).
    + apply Z.leb_gt in E. constructor; [done|].
      rewrite insert_perm. constructor; [|done].
      specialize (flip x y). lia.
Qed.

Lemma sort_sorted (l : list A) :
  StronglySorted (fun a b => (compareFn a b <= 0)%Z) (Array.sort compareFn l).
Proof.
  induction l as [|x l IH]; simpl; [constructor|].
  by apply insert_sorted.
Qed.

(** Elements the comparator calls equal to a pivot keep their order. *)
Lemma insert_stable (same : A -> bool) (x : A) (l : list A) :
  (forall a b, same a = true -> same b = true -> compareFn a b = 0%Z) ->
  List.filter same (Array.insert compareFn x l) = List.filter same (x :: l).
Proof.
  intros Hsame. induction l as [|y r IH]; [done|]. simpl.
  destruct (compareFn x y <=? 0)%Z eqn:E; [done|].
  apply Z.leb_gt in E. simpl. rewrite IH. simpl.
  destruct (same x) eqn:Ex, (same y) eqn:Ey; try done.
  specialize (Hsame x y Ex Ey). lia.
Qed.

Lemma sort_stable (same : A -> bool) (l : list A) :
  (forall a b, same a = true -> same b = true -> compareFn a b = 0%Z) ->
  List.filter same (Array.sort compareFn l) = List.filter same l.
Proof.
  intros Hsame. induction l as [|x l IH]; [done|]. simpl.
  fold (Array.sort compareFn l). rewrite insert_stable by done.
  simpl. by rewrite IH.
Qed.

End sort_facts.

(** [ordinalCompare] is a consistent comparator. *)
Lemma ordinalCompare_le (a b : string) :
  (ordinalCompare a b <= 0)%Z <-> String.le a b.
Proof.
  unfold ordinalCompare, String.le, String.leb.
  destruct (String.compare a b); simpl; split; (done || lia).
Qed.

Lemma ordinalCompare_consistent : Spec.Consistent ordinalCompare.
Proof.
  split.
  - intros a b. unfold ordinalCompare. rewrite (String.compare_antisym b a).
    destruct (String.compare a b); reflexivity.
  - intros a b c. rewrite !ordinalCompare_le. apply transitivity.
Qed.

(** C8, as amended.  For every settings registry and every consistent
    locale comparison, [sortPlugins] returns the registry's plugins sorted
    stably on the key [title || id]: the schema title, with the plugin
    identifier as fallback where the title is absent or the empty string. *)
Theorem sortPlugins_sorted_stably (localeCompare : string -> string -> Z)
    (registry : ISettingRegistry.t) :
  Spec.Consistent localeCompare ->
  Spec.SortedStablyBy localeCompare PluginList.sortKey
    (plugin_values registry) (PluginList.sortPlugins localeCompare registry).
Proof.
  intros [Hflip Htrans]. unfold PluginList.sortPlugins.
  set (cmp := fun a b : IPlugin =>
                localeCompare (PluginList.sortKey a) (PluginList.sortKey b)).
  assert (Hf : forall a b, Z.sgn (cmp a b) = (- Z.sgn (cmp b a))%Z)
    by (intros; apply Hflip).
  assert (Ht : forall a b c, (cmp a b <= 0)%Z -> (cmp b c <= 0)%Z -> (cmp a c <= 0)%Z)
    by (intros a b c; apply Htrans).
  split; [apply sort_perm|]. split; [by apply sort_sorted|].
  intros k. apply sort_stable.
  intros a b Ha%Z.eqb_eq Hb%Z.eqb_eq. unfold cmp.
  pose proof (Hflip (PluginList.sortKey b) k) as Hbk.
  pose proof (Htrans (PluginList.sortKey a) k (PluginList.sortKey b)) as H1.
  pose proof (Htrans (PluginList.sortKey b) k (PluginList.sortKey a)) as H2.
  pose proof (Hflip (PluginList.sortKey a) k) as Hak.
  pose proof (Hflip (PluginList.sortKey a) (PluginList.sortKey b)) as Hab.
  lia.
Qed.

Lemma sortPlugins_sorted_stably_witness :
  Spec.SortedStablyBy ordinalCompare PluginList.sortKey
    (plugin_values Sample.twoPlugins)
    (PluginList.sortPlugins ordinalCompare Sample.twoPlugins).
Proof.
  apply (sortPlugins_sorted_stably ordinalCompare Sample.twoPlugins).
  exact ordinalCompare_consistent.
Defined.

(** C8, as stated, fails where a title is the empty string: with the key
    [title ?? id] the plugin titled [""] would come first, but the code
    sorts it by its identifier. *)
Lemma sortPlugins_not_sorted_on_nullish_key :
  PluginList.sortPlugins ordinalCompare Sample.twoPlugins
    = [Sample.plainA; Sample.untitledB] /\
  ~ Spec.SortedStablyBy ordinalCompare Spec.titleOrId
      (plugin_values Sample.twoPlugins)
      (PluginList.sortPlugins ordinalCompare Sample.twoPlugins).
Proof.
  split; [reflexivity|].
  intros (_ & Hsorted & _).
  change (PluginList.sortPlugins ordinalCompare Sample.twoPlugins)
    with [Sample.plainA; Sample.untitledB] in Hsorted.
  apply StronglySorted_inv in Hsorted as [_ Hhd].
  apply Forall_cons in Hhd as [Hle _].
  vm_compute in Hle. by apply Hle.
Qed.

(** ** The constructor's filter *)

Lemma deprecated_spec (s : ISchema) :
  PluginList.deprecated s = true <-> Spec.MarkedDeprecated s.
Proof.
  unfold PluginList.deprecated, Spec.MarkedDeprecated, JS.is_true.
  destruct (fields s !! "jupyter.lab.setting-deprecated") as [[| [] | | | |]|];
    split; congruence.
Qed.

Lemma editable_spec (s : ISchema) :
  PluginList.editable s = true <-> Spec.Editable s.
Proof.
  unfold PluginList.editable, Spec.Editable.
  destruct (properties s) as [props|]; last first.
  { split; [done|]. by intros (? & ? & ? & _). }
  rewrite Nat.ltb_lt. split.
  - intros Hsize. destruct (map_choose props) as (key & v & Hkv).
    + intros ->. rewrite map_size_empty in Hsize. lia.
    + exists props, key. by rewrite Hkv.
  - intros (props' & key & [= <-] & [v Hv]).
    destruct (decide (props = ∅)) as [->|Hne].
    + by rewrite lookup_empty in Hv.
    + apply map_size_non_empty_iff in Hne. lia.
Qed.

Lemma extensible_spec (s : ISchema) :
  PluginList.extensible s = true <-> Spec.Extensible s.
Proof.
  unfold PluginList.extensible, Spec.Extensible, JS.is_not_false.
  destruct (fields s !! "additionalProperties") as [[| [] | | | |]|];
    split; congruence.
Qed.

Lemma hasSettings_spec (p : IPlugin) :
  PluginList.hasSettings p = true <->
  ~ Spec.MarkedDeprecated (schema p) /\
  (Spec.Editable (schema p) \/ Spec.Extensible (schema p)).
Proof.
  unfold PluginList.hasSettings.
  rewrite andb_true_iff, orb_true_iff, negb_true_iff.
  rewrite <- deprecated_spec, <- editable_spec, <- extensible_spec.
  destruct (PluginList.deprecated (schema p)); intuition congruence.
Qed.

Lemma emptyProperties_not_editable (s : ISchema) :
  Spec.EmptyProperties s -> ~ Spec.Editable s.
Proof.
  intros Hempty (props & key & Hprops & [v Hv]).
  rewrite (Hempty _ Hprops) in Hv. by rewrite lookup_empty in Hv.
Qed.

(** C3.  The plugin list keeps exactly the registry's plugins that are not
    marked deprecated and are editable or extensible; the form editor's
    constructor keeps the same ones; a deprecated plugin is never kept, nor
    one with empty properties and [additionalProperties: false]. *)
Theorem allPlugins_retains_exactly (localeCompare : string -> string -> Z)
    (options : PluginList.IOptions) (p : IPlugin) :
  let registry := PluginList.options_registry options in
  let kept := PluginList._allPlugins (PluginList.new localeCompare options) in
  (p ∈ kept <->
     p ∈ plugin_values registry /\
     ~ Spec.MarkedDeprecated (schema p) /\
     (Spec.Editable (schema p) \/ Spec.Extensible (schema p))) /\
  FormPluginEditor.plugins localeCompare registry = kept /\
  (Spec.MarkedDeprecated (schema p) -> p ∉ kept) /\
  (Spec.EmptyProperties (schema p) ->
   fields (schema p) !! "additionalProperties" = Some (JS.Bool false) ->
   p ∉ kept).
Proof.
  intros registry kept.
  assert (Hkept : p ∈ kept <->
     p ∈ plugin_values registry /\
     ~ Spec.MarkedDeprecated (schema p) /\
     (Spec.Editable (schema p) \/ Spec.Extensible (schema p))).
  { unfold kept, PluginList.new; simpl.
    rewrite list_elem_of_In, filter_In, <- list_elem_of_In.
    unfold PluginList.sortPlugins. rewrite elem_of_sort.
    by rewrite hasSettings_spec. }
  split; [exact Hkept|]. split; [reflexivity|]. split.
  - intros Hdep Hin. apply Hkept in Hin. tauto.
  - intros Hempty Hfalse Hin. apply Hkept in Hin as (_ & _ & [He|Hx]).
    + by apply (emptyProperties_not_editable _ Hempty).
    + by apply Hx.
Qed.

Lemma allPlugins_retains_exactly_witness :
  (Sample.deprecatedPlugin ∉
     PluginList._allPlugins (PluginList.new ordinalCompare Sample.mixedOptions)) /\
  (Sample.closedPlugin ∉
     PluginList._allPlugins (PluginList.new ordinalCompare Sample.mixedOptions)).
Proof.
  split.
  - apply (proj1 (proj2 (proj2
      (allPlugins_retains_exactly ordinalCompare Sample.mixedOptions
         Sample.deprecatedPlugin)))).
    vm_compute. reflexivity.
  - apply (proj2 (proj2 (proj2
      (allPlugins_retains_exactly ordinalCompare Sample.mixedOptions
         Sample.closedPlugin)))).
    + intros props [= <-]. reflexivity.
    + vm_compute. reflexivity.
Defined.

(** ** Selection by mouse *)

Lemma emissions_app (name : string) (tr1 tr2 : list effect) :
  emissions name (tr1 ++ tr2) = (emissions name tr1 + emissions name tr2)%nat.
Proof. unfold emissions. by rewrite List.filter_app, length_app. Qed.

(** C1.  A click that reaches the confirmation hook and is refused changes
    nothing in the plugin list: the selection, the stored scroll position
    and every other field are as before, and no ["changed"] is emitted. *)
Theorem mousedown_rejected_unchanged (event : PluginList.MouseEvent)
    (w : PluginList.t) (ident reason : string) :
  PluginList.clicked w event = Some ident ->
  PluginList._confirm w ident = JS.Rejected reason ->
  let after := fst (PluginList._evtMousedown event w) in
  let tr := snd (PluginList._evtMousedown event w) in
  after = w /\
  PluginList.selection after = PluginList.selection w /\
  PluginList._scrollTop after = PluginList._scrollTop w /\
  PluginList.scrollTop after = PluginList.scrollTop w /\
  emissions "changed" tr = 0%nat /\
  UpdateRequest ∉ tr.
Proof.
  intros Hclick Hrej. unfold PluginList._evtMousedown.
  rewrite Hclick, Hrej. simpl. repeat split; try done.
  rewrite !elem_of_cons, elem_of_nil. intros [|[|[]]]; discriminate.
Qed.

Lemma mousedown_rejected_unchanged_witness :
  fst (PluginList._evtMousedown Sample.clickOnA (Sample.listWith true))
    = Sample.listWith true /\
  emissions "changed"
    (snd (PluginList._evtMousedown Sample.clickOnA (Sample.listWith true))) = 0%nat.
Proof.
  pose proof (mousedown_rejected_unchanged Sample.clickOnA
                (Sample.listWith true) "a" "User canceled."
                eq_refl eq_refl) as (Hsame & _ & _ & _ & Hnone & _).
  split; [exact Hsame | exact Hnone].
Defined.

(** ** The scan of the modified plugins *)

Section scan_facts.
Variable load : string -> JS.promise Settings.

Lemma scan_loaded (ps acc : list IPlugin) :
  Forall (Spec.loaded load) ps ->
  PluginList.scanPlugins load ps acc =
    (JS.Fulfilled (acc ++ List.filter (Spec.reportsModified load) ps),
     (fun p => CallLoad (id p)) <$> ps).
Proof.
  intros Hall. revert acc.
  induction Hall as [|p ps [s Hs] _ IH]; intros acc; simpl.
  - by rewrite app_nil_r.
  - unfold Spec.reportsModified at 1. rewrite Hs.
    destruct (modifiedFields s) as [|f fs]; simpl.
    + by rewrite IH.
    + by rewrite IH, <- app_assoc.
Qed.

Lemma scan_rejected (before after acc : list IPlugin) (p : IPlugin)
    (reason : string) :
  Forall (Spec.loaded load) before ->
  load (id p) = JS.Rejected reason ->
  PluginList.scanPlugins load (before ++ p :: after) acc =
    (JS.Rejected reason, (fun q => CallLoad (id q)) <$> (before ++ [p])).
Proof.
  intros Hall Hrej. revert acc.
  induction Hall as [|q qs [s Hs] _ IH]; intros acc; simpl.
  - by rewrite Hrej.
  - rewrite Hs. by rewrite IH.
Qed.

Lemma scan_only_loads (ps acc : list IPlugin) :
  Forall (fun e => exists ident, e = CallLoad ident)
         (snd (PluginList.scanPlugins load ps acc)).
Proof.
  revert acc. induction ps as [|p ps IH]; intros acc; simpl; [constructor|].
  destruct (load (id p)) as [s| |]; simpl.
  - specialize (IH (if (0 <? length (modifiedFields s))%nat
                    then acc ++ [p] else acc)).
    destruct (PluginList.scanPlugins load ps _) as [r tr]; simpl in *.
    constructor; eauto.
  - repeat constructor; eauto.
  - repeat constructor; eauto.
Qed.

End scan_facts.

Lemma emissions_loads (name : string) (tr : list effect) :
  Forall (fun e => exists ident, e = CallLoad ident) tr ->
  emissions name tr = 0%nat.
Proof.
  induction 1 as [|e tr [ident ->] _ IH]; [done|].
  unfold emissions in *. simpl. exact IH.
Qed.

Lemma emissions_scan (load : string -> JS.promise Settings) (w : PluginList.t) :
  emissions "changed" (snd (fst (PluginList.updateModifiedPlugins load w))) = 0%nat.
Proof.
  unfold PluginList.updateModifiedPlugins.
  pose proof (scan_only_loads load (PluginList._allPlugins w) []) as Hloads.
  destruct (PluginList.scanPlugins load (PluginList._allPlugins w) [])
    as [[modified|reason|] tr]; simpl in *;
    repeat case_match; simpl;
    rewrite ?emissions_app, (emissions_loads _ tr Hloads); reflexivity.
Qed.

Lemma emissions_step (a : PluginList.action) (w : PluginList.t) :
  emissions "changed" (snd (PluginList.step a w)) =
  PluginList.confirmedClicks [a] w.
Proof.
  destruct a as [event| | |load|]; simpl; try reflexivity.
  - unfold PluginList._evtMousedown.
    destruct (PluginList.clicked w event) as [ident|]; [|reflexivity].
    destruct (PluginList._confirm w ident); reflexivity.
  - by rewrite emissions_scan.
Qed.

Lemma emissions_run (script : list PluginList.action) (w : PluginList.t) :
  emissions "changed" (snd (PluginList.run script w)) =
  PluginList.confirmedClicks script w.
Proof.
  revert w. induction script as [|a rest IH]; intros w; [reflexivity|].
  pose proof (emissions_step a w) as Hstep. simpl in *.
  destruct (PluginList.step a w) as [w1 tr1] eqn:Ea. simpl in *.
  specialize (IH w1). destruct (PluginList.run rest w1) as [w2 tr2]. simpl in *.
  rewrite emissions_app, Hstep, IH. lia.
Qed.

(** C2.  A click that reaches the confirmation hook and is confirmed sets
    the selection to the clicked identifier and emits ["changed"] exactly
    once.  Over any sequence of deliveries the number of ["changed"]
    emissions is the number of confirmed clicks, and writing the selection
    property requests a re-render without emitting. *)
Theorem changed_only_on_confirmed_click (w : PluginList.t) :
  (forall event ident,
     PluginList.clicked w event = Some ident ->
     PluginList._confirm w ident = JS.Fulfilled tt ->
     PluginList.selection (fst (PluginList._evtMousedown event w)) = ident /\
     emissions "changed" (snd (PluginList._evtMousedown event w)) = 1%nat) /\
  (forall script,
     emissions "changed" (snd (PluginList.run script w)) =
     PluginList.confirmedClicks script w) /\
  (forall selection,
     PluginList.selection (fst (PluginList.set_selection selection w)) = selection /\
     snd (PluginList.set_selection selection w) = [UpdateRequest] /\
     emissions "changed" (snd (PluginList.set_selection selection w)) = 0%nat).
Proof.
  split; [|split].
  - intros event ident Hclick Hok. unfold PluginList._evtMousedown.
    rewrite Hclick, Hok. by simpl.
  - intros script. apply emissions_run.
  - intros selection. by simpl.
Qed.

Lemma changed_only_on_confirmed_click_witness :
  PluginList.selection
    (fst (PluginList._evtMousedown Sample.clickOnA (Sample.listWith false))) = "a" /\
  emissions "changed"
    (snd (PluginList._evtMousedown Sample.clickOnA (Sample.listWith false))) = 1%nat.
Proof.
  exact (proj1 (changed_only_on_confirmed_click (Sample.listWith false))
           Sample.clickOnA "a" eq_refl eq_refl).
Defined.

(** ** The modified set *)

Lemma findById_spec (l : list IPlugin) (p : IPlugin) :
  PluginList.findById l p = true <-> id p ∈ id <$> l.
Proof.
  unfold PluginList.findById. rewrite existsb_exists, list_elem_of_fmap.
  split.
  - intros (q & Hq & Heq%String.eqb_eq). exists q.
    split; [done | by apply list_elem_of_In].
  - intros (q & Heq & Hq). exists q.
    split; [by apply list_elem_of_In | by apply String.eqb_eq].
Qed.

Lemma NoDup_ids_filter (f : IPlugin -> bool) (l : list IPlugin) :
  NoDup (id <$> l) -> NoDup (id <$> List.filter f l).
Proof.
  induction l as [|x l IH]; simpl; [done|].
  rewrite NoDup_cons. intros [Hx Hl].
  destruct (f x); simpl; [|by auto].
  rewrite NoDup_cons. split; [|by auto].
  intros (q & Hq & Hin)%list_elem_of_fmap. apply Hx.
  apply list_elem_of_fmap. exists q. split; [done|].
  apply list_elem_of_In in Hin. apply filter_In in Hin as [Hin _].
  by apply list_elem_of_In.
Qed.

Lemma scan_fulfilled_inv (load : string -> JS.promise Settings)
    (ps acc modified : list IPlugin) :
  fst (PluginList.scanPlugins load ps acc) = JS.Fulfilled modified ->
  Forall (Spec.loaded load) ps.
Proof.
  revert acc. induction ps as [|p ps IH]; intros acc; simpl; [constructor|].
  destruct (load (id p)) as [s| |] eqn:Hs; simpl; try discriminate.
  specialize (IH (if (0 <? length (modifiedFields s))%nat
                  then acc ++ [p] else acc)).
  destruct (PluginList.scanPlugins load ps _) as [r tr]; simpl in *.
  intros Hr. constructor; [by exists s | by apply IH].
Qed.

Lemma step_allPlugins (a : PluginList.action) (w : PluginList.t) :
  PluginList._allPlugins (fst (PluginList.step a w)) = PluginList._allPlugins w.
Proof.
  destruct a as [event| | |load|]; simpl; try reflexivity.
  - unfold PluginList._evtMousedown.
    destruct (PluginList.clicked w event) as [ident|]; [|reflexivity].
    destruct (PluginList._confirm w ident); reflexivity.
  - unfold PluginList.onUpdateRequest. by repeat case_match.
  - unfold PluginList.updateModifiedPlugins.
    destruct (PluginList.scanPlugins load (PluginList._allPlugins w) [])
      as [[modified|reason|] tr]; try reflexivity.
    destruct (negb _); [reflexivity|]. by destruct (existsb _ _).
Qed.

Lemma step_within (a : PluginList.action) (w : PluginList.t) :
  ModifiedWithinAll w -> ModifiedWithinAll (fst (PluginList.step a w)).
Proof.
  intros [keep Hkeep]. unfold ModifiedWithinAll.
  destruct a as [event| | |load|]; simpl; eauto.
  - unfold PluginList._evtMousedown.
    destruct (PluginList.clicked w event) as [ident|]; [|by eauto].
    destruct (PluginList._confirm w ident); simpl; eauto.
  - unfold PluginList.onUpdateRequest. repeat case_match; simpl; eauto.
  - unfold PluginList.updateModifiedPlugins.
    destruct (PluginList.scanPlugins load (PluginList._allPlugins w) [])
      as [[modified|reason|] tr] eqn:Hscan; simpl; eauto.
    pose proof (scan_fulfilled_inv load (PluginList._allPlugins w) [] modified) as Hall.
    rewrite Hscan in Hall. specialize (Hall eq_refl).
    rewrite (scan_loaded load _ [] Hall) in Hscan. simplify_eq/=.
    destruct (negb _); simpl; [by eauto|].
    destruct (existsb _ _); simpl; eauto.
Qed.

Lemma run_allPlugins (script : list PluginList.action) (w : PluginList.t) :
  PluginList._allPlugins (fst (PluginList.run script w)) = PluginList._allPlugins w.
Proof.
  revert w. induction script as [|a rest IH]; intros w; [reflexivity|].
  simpl. pose proof (step_allPlugins a w) as Ha.
  destruct (PluginList.step a w) as [w1 tr1]. specialize (IH w1).
  destruct (PluginList.run rest w1) as [w2 tr2]. simpl in *. congruence.
Qed.

Lemma run_within (script : list PluginList.action) (w : PluginList.t) :
  ModifiedWithinAll w -> ModifiedWithinAll (fst (PluginList.run script w)).
Proof.
  revert w. induction script as [|a rest IH]; intros w Hw; [done|].
  simpl. pose proof (step_within a w Hw) as Ha.
  destruct (PluginList.step a w) as [w1 tr1]. specialize (IH w1 Ha).
  by destruct (PluginList.run rest w1) as [w2 tr2].
Qed.

Lemma new_within (localeCompare : string -> string -> Z)
    (options : PluginList.IOptions) :
  ModifiedWithinAll (PluginList.new localeCompare options).
Proof.
  exists (fun _ => false). simpl.
  assert (Hnone : forall l : list IPlugin, [] = List.filter (fun _ => false) l)
    by (induction l; done).
  apply Hnone.
Qed.

Lemma new_NoDup_ids (localeCompare : string -> string -> Z)
    (options : PluginList.IOptions) :
  NoDup (id <$> plugin_values (PluginList.options_registry options)) ->
  NoDup (id <$> PluginList._allPlugins (PluginList.new localeCompare options)).
Proof.
  intros Hnd. simpl. apply NoDup_ids_filter.
  unfold PluginList.sortPlugins. by rewrite sort_perm.
Qed.

Lemma reportsModified_spec (load : string -> JS.promise Settings) (p : IPlugin) :
  Spec.reportsModified load p = true <->
  exists settings, load (id p) = JS.Fulfilled settings /\ modifiedFields settings <> [].
Proof.
  unfold Spec.reportsModified. destruct (load (id p)) as [s| |]; last first.
  - split; [done | by intros (? & ? & _)].
  - split; [done | by intros (? & ? & _)].
  - destruct (modifiedFields s) as [|f fs] eqn:Hs; split; try done.
    + intros (s' & [= <-] & Hne). congruence.
    + intros _. exists s. split; [done|]. congruence.
Qed.

(** A selection contained in another one of the same list is no longer. *)
Lemma filter_length_le {A : Type} (f g : A -> bool) (l : list A) :
  (forall x, x ∈ l -> g x = true -> f x = true) ->
  length (List.filter g l) <= length (List.filter f l).
Proof.
  induction l as [|x l IH]; intros Himp; simpl; [lia|].
  assert (Himp' : forall y, y ∈ l -> g y = true -> f y = true).
  { intros y Hy. apply Himp. by right. }
  specialize (IH Himp').
  destruct (g x) eqn:Eg.
  - rewrite (Himp x) by (done || by left). simpl. lia.
  - destruct (f x); simpl; lia.
Qed.

(** A selection that contains another one of the same list and is as long
    is that other selection. *)
Lemma filter_eq_of_length {A : Type} (f g : A -> bool) (l : list A) :
  (forall x, x ∈ l -> g x = true -> f x = true) ->
  length (List.filter f l) = length (List.filter g l) ->
  List.filter f l = List.filter g l.
Proof.
  induction l as [|x l IH]; intros Himp Hlen; simpl in *; [done|].
  assert (Himp' : forall y, y ∈ l -> g y = true -> f y = true).
  { intros y Hy. apply Himp. by right. }
  pose proof (filter_length_le f g l Himp') as Hle.
  destruct (g x) eqn:Eg.
  - rewrite (Himp x) in * by (done || by left). simpl in Hlen.
    f_equal. apply IH; [done | lia].
  - destruct (f x) eqn:Ef; simpl in Hlen; [lia|]. by apply IH.
Qed.

(** The stored list is always a selection of [_allPlugins] by identifier. *)
Lemma step_by_identifier (a : PluginList.action) (w : PluginList.t) :
  ModifiedByIdentifier w -> ModifiedByIdentifier (fst (PluginList.step a w)).
Proof.
  intros [keep Hkeep]. unfold ModifiedByIdentifier.
  destruct a as [event| | |load|]; simpl; eauto.
  - unfold PluginList._evtMousedown.
    destruct (PluginList.clicked w event) as [ident|]; [|by eauto].
    destruct (PluginList._confirm w ident); simpl; eauto.
  - unfold PluginList.onUpdateRequest. repeat case_match; simpl; eauto.
  - unfold PluginList.updateModifiedPlugins.
    destruct (PluginList.scanPlugins load (PluginList._allPlugins w) [])
      as [[modified|reason|] tr] eqn:Hscan; simpl; eauto.
    pose proof (scan_fulfilled_inv load (PluginList._allPlugins w) [] modified) as Hall.
    rewrite Hscan in Hall. specialize (Hall eq_refl).
    rewrite (scan_loaded load _ [] Hall) in Hscan. simplify_eq/=.
    assert (Hscanned : exists keep' : string -> bool,
              List.filter (Spec.reportsModified load) (PluginList._allPlugins w) =
              List.filter (fun p => keep' (id p)) (PluginList._allPlugins w)).
    { exists (fun ident =>
                match load ident with
                | JS.Fulfilled settings =>
                    match modifiedFields settings with
                    | [] => false
                    | _ :: _ => true
                    end
                | _ => false
                end).
      reflexivity. }
    destruct (negb _); simpl; [done|].
    destruct (existsb _ _); simpl; eauto.
Qed.

Lemma run_by_identifier (script : list PluginList.action) (w : PluginList.t) :
  ModifiedByIdentifier w -> ModifiedByIdentifier (fst (PluginList.run script w)).
Proof.
  revert w. induction script as [|a rest IH]; intros w Hw; [done|].
  simpl. pose proof (step_by_identifier a w Hw) as Ha.
  destruct (PluginList.step a w) as [w1 tr1]. specialize (IH w1 Ha).
  by destruct (PluginList.run rest w1) as [w2 tr2].
Qed.

Lemma new_by_identifier (localeCompare : string -> string -> Z)
    (options : PluginList.IOptions) :
  ModifiedByIdentifier (PluginList.new localeCompare options).
Proof.
  exists (fun _ => false). simpl.
  assert (Hnone : forall l : list IPlugin,
            [] = List.filter (fun p => (fun _ : string => false) (id p)) l)
    by (induction l; done).
  apply Hnone.
Qed.

(** A scan whose loads are all fulfilled stores the plugins that report a
    modified field, whether it replaces the stored list or finds it
    unchanged. *)
Lemma updateModifiedPlugins_all_loaded (load : string -> JS.promise Settings)
    (w : PluginList.t) :
  ModifiedByIdentifier w ->
  Forall (Spec.loaded load) (PluginList._allPlugins w) ->
  let result := PluginList.updateModifiedPlugins load w in
  snd result = JS.Fulfilled tt /\
  PluginList._allPlugins (fst (fst result)) = PluginList._allPlugins w /\
  PluginList._modifiedPlugins (fst (fst result)) =
    List.filter (Spec.reportsModified load) (PluginList._allPlugins w) /\
  ((fun p => CallLoad (id p)) <$> PluginList._allPlugins w)
    `prefix_of` snd (fst result).
Proof.
  intros [keep Hkeep] Hall. unfold PluginList.updateModifiedPlugins.
  rewrite (scan_loaded load _ [] Hall). simpl.
  set (modified := List.filter (Spec.reportsModified load) (PluginList._allPlugins w)).
  destruct (negb _) eqn:Hlen; simpl.
  { repeat split; try done. by apply prefix_app_r. }
  destruct (existsb _ modified) eqn:Hfind; simpl.
  { repeat split; try done. by apply prefix_app_r. }
  repeat split; try done.
  rewrite Hkeep. apply filter_eq_of_length.
  - intros p Hp Hmodified.
    destruct (PluginList.findById (PluginList._modifiedPlugins w) p) eqn:Hp'.
    + apply findById_spec in Hp'.
      apply list_elem_of_fmap in Hp' as (q & Heq & Hq).
      rewrite Hkeep in Hq. apply list_elem_of_In, filter_In in Hq.
      rewrite Heq. by destruct Hq.
    + exfalso. apply not_true_iff_false in Hfind. apply Hfind.
      apply existsb_exists. exists p. split; [|by rewrite Hp'].
      apply filter_In. split; [by apply list_elem_of_In | done].
  - rewrite <- Hkeep. apply negb_false_iff, Nat.eqb_eq in Hlen. exact Hlen.
Qed.

(** C5, as amended.  In any state the plugin list can reach, an update cycle
    whose loads are all fulfilled loads every filtered plugin in turn and
    leaves as modified plugins exactly the filtered plugins whose loaded
    settings report at least one modified field. *)
Theorem modified_set_after_update_cycle
    (localeCompare : string -> string -> Z) (options : PluginList.IOptions)
    (script : list PluginList.action) (load : string -> JS.promise Settings) :
  let w := fst (PluginList.run script (PluginList.new localeCompare options)) in
  let result := PluginList.updateCycle load w in
  let after := fst (fst result) in
  Forall (Spec.loaded load) (PluginList._allPlugins w) ->
  snd result = JS.Fulfilled tt /\
  PluginList._modifiedPlugins after =
    List.filter (Spec.reportsModified load) (PluginList._allPlugins after) /\
  (forall p, p ∈ PluginList._modifiedPlugins after <->
     p ∈ PluginList._allPlugins (PluginList.new localeCompare options) /\
     exists settings,
       load (id p) = JS.Fulfilled settings /\ modifiedFields settings <> []) /\
  ((fun p => CallLoad (id p)) <$> PluginList._allPlugins w)
    `prefix_of` snd (snd (fst result)).
Proof.
  intros w result after Hall.
  pose proof (run_allPlugins script (PluginList.new localeCompare options)) as Hsame.
  pose proof (run_by_identifier script _ (new_by_identifier localeCompare options))
    as Hwithin.
  fold w in Hsame, Hwithin.
  set (w1 := fst (PluginList.onUpdateRequest w)).
  assert (Hall1 : PluginList._allPlugins w1 = PluginList._allPlugins w).
  { unfold w1, PluginList.onUpdateRequest. by repeat case_match. }
  assert (Hmod1 : PluginList._modifiedPlugins w1 = PluginList._modifiedPlugins w).
  { unfold w1, PluginList.onUpdateRequest. by repeat case_match. }
  assert (Hwithin1 : ModifiedByIdentifier w1).
  { destruct Hwithin as [keep Hkeep]. exists keep. by rewrite Hmod1, Hall1. }
  rewrite <- Hall1 in Hall.
  destruct (updateModifiedPlugins_all_loaded load w1 Hwithin1 Hall)
    as (Hdone & Hall2 & Hmod2 & Htr).
  assert (Hresult : result =
    (fst (fst (PluginList.updateModifiedPlugins load w1)),
     ([Render], snd (fst (PluginList.updateModifiedPlugins load w1))),
     snd (PluginList.updateModifiedPlugins load w1))).
  { reflexivity. }
  unfold after. rewrite Hresult. simpl.
  split; [exact Hdone|]. split; [by rewrite Hall2|].
  split; [|by rewrite <- Hall1].
  intros p. rewrite Hmod2, list_elem_of_In, filter_In, <- list_elem_of_In.
  by rewrite reportsModified_spec, Hall1, Hsame.
Qed.

Lemma modified_set_after_update_cycle_witness :
  PluginList._modifiedPlugins
    (fst (fst (PluginList.updateCycle Sample.loadAll
       (fst (PluginList.run
               [PluginList.Mousedown Sample.clickOnA; PluginList.UpdateRequested]
               Sample.scenarioList)))))
  = [Sample.pluginA].
Proof.
  pose proof (modified_set_after_update_cycle ordinalCompare
                Sample.scenarioOptions
                [PluginList.Mousedown Sample.clickOnA; PluginList.UpdateRequested]
                Sample.loadAll) as Hcycle.
  simpl in Hcycle.
  destruct Hcycle as (_ & Hmodified & _).
  - apply Forall_forall. intros p _. eexists. reflexivity.
  - etransitivity; [exact Hmodified|]. reflexivity.
Defined.

(** C5, as stated, fails.  The settings of the modified plugin are loaded
    and report a modified field, but the load of a later plugin is rejected:
    the cycle leaves the stored list empty.  On the next cycle no plugin
    reports a modified field and the same load is rejected again: the
    plugin stored in between stays. *)
Lemma modified_set_stale_after_rejected_load :
  CallLoad (id Sample.pluginA)
    ∈ snd (snd (fst (PluginList.updateCycle CycleScene.lastRejected
                       Sample.scenarioList))) /\
  Spec.reportsModified CycleScene.lastRejected Sample.pluginA = true /\
  PluginList._modifiedPlugins
    (fst (fst (PluginList.updateCycle CycleScene.lastRejected
                 Sample.scenarioList))) = [] /\
  ~ Spec.ModifiedSetAsStated CycleScene.lastRejected Sample.scenarioList /\
  PluginList._modifiedPlugins CycleScene.scanned = [Sample.pluginA] /\
  PluginList._modifiedPlugins
    (fst (fst (PluginList.updateCycle CycleScene.noneModified
                 CycleScene.scanned))) = [Sample.pluginA] /\
  ~ Spec.ModifiedSetAsStated CycleScene.noneModified CycleScene.scanned.
Proof.
  repeat apply conj; try reflexivity.
  - apply (bool_decide_unpack _). by vm_compute.
  - unfold Spec.ModifiedSetAsStated. by vm_compute.
  - unfold Spec.ModifiedSetAsStated. by vm_compute.
Qed.

(** ** A load that fails *)

(** C6, as amended.  When the load of a plugin's settings is rejected during
    the scan, nothing catches or logs it: the scan stops at that plugin
    without loading the plugins after it, its promise is rejected with the
    reason of the load, and the plugin list, its stored modified plugins
    included, is left as it was. *)
Theorem load_rejection_aborts_scan (load : string -> JS.promise Settings)
    (w : PluginList.t) (before after : list IPlugin) (p : IPlugin)
    (reason : string) :
  PluginList._allPlugins w = before ++ p :: after ->
  Forall (Spec.loaded load) before ->
  load (id p) = JS.Rejected reason ->
  let result := PluginList.updateModifiedPlugins load w in
  result = (w, (fun q => CallLoad (id q)) <$> (before ++ [p]), JS.Rejected reason) /\
  PluginList._modifiedPlugins (fst (fst result)) = PluginList._modifiedPlugins w /\
  (forall text, ConsoleLog text ∉ snd (fst result)) /\
  UpdateRequest ∉ snd (fst result).
Proof.
  intros Hsplit Hbefore Hrej result.
  assert (Hresult : result =
    (w, (fun q => CallLoad (id q)) <$> (before ++ [p]), JS.Rejected reason)).
  { unfold result, PluginList.updateModifiedPlugins.
    by rewrite Hsplit, (scan_rejected load before after [] p reason Hbefore Hrej). }
  rewrite Hresult. simpl. repeat split; try done.
  - intros text (q & Hq & _)%list_elem_of_fmap. discriminate.
  - intros (q & Hq & _)%list_elem_of_fmap. discriminate.
Qed.

Lemma load_rejection_aborts_scan_witness :
  PluginList.updateModifiedPlugins Sample.loadFailing Sample.scenarioList
  = (Sample.scenarioList, [CallLoad "a.unloadable"], JS.Rejected "offline").
Proof.
  apply (load_rejection_aborts_scan Sample.loadFailing Sample.scenarioList
           [] [Sample.pluginA; Sample.plainA] Sample.unloadable "offline").
  - reflexivity.
  - constructor.
  - reflexivity.
Defined.

(** C6, as stated, fails: with a first plugin whose load is rejected and a
    second one that is modified, the scan ends in a rejection after one
    load, logs nothing and stores no modified plugin. *)
Lemma load_failure_not_tolerated :
  PluginList.updateModifiedPlugins Sample.loadFailing Sample.scenarioList
    = (Sample.scenarioList, [CallLoad "a.unloadable"], JS.Rejected "offline") /\
  List.filter (Spec.reportsModified Sample.loadFailing)
    (PluginList._allPlugins Sample.scenarioList) = [Sample.pluginA] /\
  PluginList._modifiedPlugins Sample.scenarioList = [] /\
  ~ Spec.LoadFailureTolerated Sample.loadFailing Sample.scenarioList.
Proof.
  assert (Hrun :
    PluginList.updateModifiedPlugins Sample.loadFailing Sample.scenarioList
    = (Sample.scenarioList, [CallLoad "a.unloadable"], JS.Rejected "offline"))
    by reflexivity.
  repeat split; try reflexivity.
  unfold Spec.LoadFailureTolerated. rewrite Hrun. simpl.
  intros (Hdone & _). discriminate.
Qed.

(** ** Closing the settings editor *)

Lemma hasErrors_spec (errors : gmap string bool) :
  SimpleSettingsEditor.hasErrors errors = true <->
  exists ident, errors !! ident = Some true.
Proof.
  unfold SimpleSettingsEditor.hasErrors.
  rewrite bool_decide_eq_true, map_Exists_lookup.
  split; [intros (i & x & Hix & ->) | intros (i & Hi)]; eauto.
Qed.

(** C7.  With some plugin in an error state a close request shows the
    confirmation dialog first and closes the panel exactly when the user
    accepts, so declining keeps it open; with no plugin in an error state
    the panel closes and no dialog is shown. *)
Theorem onCloseRequest_gated (answer : JS.promise Dialog.IResult)
    (w : SimpleSettingsEditor.t) :
  ((exists ident, SimpleSettingsEditor._list_errors w !! ident = Some true) ->
   exists title body buttons,
     SimpleSettingsEditor.onCloseRequest answer w =
       ShowDialog title body buttons :: (if Spec.accepts answer then [Close] else []) /\
     (Close ∈ SimpleSettingsEditor.onCloseRequest answer w <->
      Spec.accepts answer = true) /\
     (Spec.declines answer = true ->
      Close ∉ SimpleSettingsEditor.onCloseRequest answer w)) /\
  (~ (exists ident, SimpleSettingsEditor._list_errors w !! ident = Some true) ->
   SimpleSettingsEditor.onCloseRequest answer w = [Close]).
Proof.
  unfold SimpleSettingsEditor.onCloseRequest. split.
  - intros Herr%hasErrors_spec. rewrite Herr. do 3 eexists.
    assert (Hshape : forall tail : list effect,
      Close ∈ ShowDialog
        "Unsaved changes due to validation error. Continue without saving?"
        None [Dialog.okButton None; Dialog.cancelButton None] :: tail
      <-> Close ∈ tail).
    { intros tail. rewrite elem_of_cons. split; [by intros [?|?] | by right]. }
    split; [|split].
    + destruct answer as [value| |]; simpl; [|reflexivity..].
      reflexivity.
    + rewrite Hshape. destruct answer as [value| |]; simpl.
      * destruct (Dialog.accept (Dialog.chosen value)).
        -- split; [done | intros _; by left].
        -- split; [by intros ?%elem_of_nil | done].
      * split; [by intros ?%elem_of_nil | done].
      * split; [by intros ?%elem_of_nil | done].
    + rewrite Hshape. destruct answer as [value| |]; simpl; try done.
      destruct (Dialog.accept (Dialog.chosen value)); [done|].
      intros _. by intros ?%elem_of_nil.
  - intros Hnone.
    destruct (SimpleSettingsEditor.hasErrors _) eqn:Herr; [|reflexivity].
    exfalso. by apply Hnone, hasErrors_spec.
Qed.

Lemma onCloseRequest_gated_witness :
  (Close ∉ SimpleSettingsEditor.onCloseRequest Sample.sayCancel Sample.editorWithError) /\
  (Close ∈ SimpleSettingsEditor.onCloseRequest Sample.sayOk Sample.editorWithError) /\
  SimpleSettingsEditor.onCloseRequest Sample.sayOk
    {| SimpleSettingsEditor._list_errors := ∅ |} = [Close].
Proof.
  assert (Herr : exists ident,
    SimpleSettingsEditor._list_errors Sample.editorWithError !! ident = Some true).
  { exists "a". vm_compute. reflexivity. }
  split; [|split].
  - destruct (proj1 (onCloseRequest_gated Sample.sayCancel Sample.editorWithError) Herr)
      as (title & body & buttons & _ & _ & Hdecline).
    by apply Hdecline.
  - destruct (proj1 (onCloseRequest_gated Sample.sayOk Sample.editorWithError) Herr)
      as (title & body & buttons & _ & Haccept & _).
    by apply Haccept.
  - apply (proj2 (onCloseRequest_gated Sample.sayOk
                    {| SimpleSettingsEditor._list_errors := ∅ |})).
    intros (ident & Hident). simpl in Hident. by rewrite lookup_empty in Hident.
Defined.

(** ** Leaving a plugin editor *)

Lemma andThen_leave (answer : JS.promise Dialog.IResult) :
  (Spec.accepts answer = true ->
   RawPluginEditor.andThen answer RawPluginEditor.leaveOrThrow = JS.Fulfilled tt) /\
  (Spec.declines answer = true ->
   RawPluginEditor.andThen answer RawPluginEditor.leaveOrThrow
     = JS.Rejected "User canceled.").
Proof.
  destruct answer as [[button]| |]; simpl; [|done..].
  unfold RawPluginEditor.leaveOrThrow. simpl.
  by destruct (Dialog.accept button).
Qed.

(** C9.  The raw editor's [confirm] resolves at once, without a dialog,
    when the editor is hidden, not attached or not dirty.  Otherwise (shown,
    attached and dirty) it shows the unsaved-changes dialog; the promise is
    fulfilled when the user accepts and rejected when the user declines. *)
Theorem raw_confirm_gated (answer : JS.promise Dialog.IResult)
    (w : RawPluginEditor.t) :
  (RawPluginEditor.isHidden w = true \/
   RawPluginEditor.isAttached w = false \/
   RawPluginEditor.isDirty w = false ->
   RawPluginEditor.confirm answer w = (JS.Fulfilled tt, [])) /\
  (RawPluginEditor.isHidden w = false ->
   RawPluginEditor.isAttached w = true ->
   RawPluginEditor.isDirty w = true ->
   (exists title body buttons,
      snd (RawPluginEditor.confirm answer w) = [ShowDialog title body buttons]) /\
   (Spec.accepts answer = true ->
    fst (RawPluginEditor.confirm answer w) = JS.Fulfilled tt) /\
   (Spec.declines answer = true ->
    exists reason, fst (RawPluginEditor.confirm answer w) = JS.Rejected reason)).
Proof.
  unfold RawPluginEditor.confirm. split.
  - intros [-> | [-> | ->]]; simpl; [done| |].
    + by rewrite orb_true_r.
    + by rewrite !orb_true_r.
  - intros -> -> ->. simpl. split; [by eauto|].
    destruct (andThen_leave answer) as [Hok Hno]. split.
    + exact Hok.
    + intros Hdecl. eexists. by apply Hno.
Qed.

Lemma raw_confirm_gated_witness :
  (exists reason,
     fst (RawPluginEditor.confirm Sample.sayCancel Sample.dirtyEditor)
       = JS.Rejected reason) /\
  fst (RawPluginEditor.confirm Sample.sayOk Sample.dirtyEditor) = JS.Fulfilled tt /\
  RawPluginEditor.confirm Sample.sayCancel
    {| RawPluginEditor.isHidden := true;
       RawPluginEditor.isAttached := true;
       RawPluginEditor.rawEditor_isDirty := true;
       RawPluginEditor.trans := fun text => text |} = (JS.Fulfilled tt, []).
Proof.
  split; [|split].
  - destruct (proj2 (raw_confirm_gated Sample.sayCancel Sample.dirtyEditor)
                eq_refl eq_refl eq_refl) as (_ & _ & Hdecline).
    by apply Hdecline.
  - destruct (proj2 (raw_confirm_gated Sample.sayOk Sample.dirtyEditor)
                eq_refl eq_refl eq_refl) as (_ & Haccept & _).
    by apply Haccept.
  - apply (proj1 (raw_confirm_gated Sample.sayCancel _)). by left.
Defined.

(** C10.  In the form-based editor [isDirty] is constantly false, so
    [confirm(id)] never shows the unsaved-changes dialog and always returns
    a fulfilled promise; all it does is scroll the editor of plugin [id]
    into view when there is one. *)
Theorem form_confirm_always_resolves (ident : string)
    (answer : JS.promise Dialog.IResult) (w : FormPluginEditor.t) :
  FormPluginEditor.isDirty w = false /\
  fst (FormPluginEditor.confirm ident answer w) = JS.Fulfilled tt /\
  (forall title body buttons,
     ShowDialog title body buttons ∉ snd (FormPluginEditor.confirm ident answer w)) /\
  snd (FormPluginEditor.confirm ident answer w) =
    (if existsb (fun editor => String.eqb (id (FormPluginEditor.plugin editor)) ident)
                (FormPluginEditor._editors w)
     then [ScrollIntoView ident] else []).
Proof.
  unfold FormPluginEditor.confirm, FormPluginEditor.isDirty.
  rewrite orb_true_r. simpl.
  assert (Hfind :
    match List.find (fun editor => String.eqb (id (FormPluginEditor.plugin editor)) ident)
                    (FormPluginEditor._editors w) with
    | Some editor => [ScrollIntoView (id (FormPluginEditor.plugin editor))]
    | None => []
    end =
    if existsb (fun editor => String.eqb (id (FormPluginEditor.plugin editor)) ident)
               (FormPluginEditor._editors w)
    then [ScrollIntoView ident] else []).
  { induction (FormPluginEditor._editors w) as [|editor rest IH]; simpl; [done|].
    destruct (String.eqb (id (FormPluginEditor.plugin editor)) ident) eqn:E; simpl.
    - apply String.eqb_eq in E. by rewrite E.
    - exact IH. }
  repeat split; try done.
  intros title body buttons. rewrite Hfind.
  destruct (existsb _ _).
  - rewrite elem_of_cons, elem_of_nil. by intros [|[]].
  - apply not_elem_of_nil.
Qed.

(** ** Rendering hints *)

Lemma isSet_truthy (m : JSObject.member) :
  Spec.isSet m = JSObject.truthy m.
Proof.
  destruct m as [[|b|[q|negative|]|s|items|fields]| |]; try reflexivity.
  by destruct s.
Qed.

Lemma gives_read (own : option JS.value) (key : string) (m : JSObject.member) :
  Spec.Gives JSObject.prototypeKeys own key m -> m = JSObject.ofOwn own key.
Proof.
  unfold JSObject.ofOwn.
  intros [(v & -> & ->)|[(-> & Hin & ->)|(-> & Hnot & ->)]]; [done|..];
    by case_bool_decide.
Qed.

Lemma schemaValue_read (plugin : IPlugin) (key : string) (m : JSObject.member) :
  Spec.SchemaValue JSObject.prototypeKeys plugin key m ->
  m = JSObject.ofOwn (schema_get (schema plugin) key) key.
Proof.
  unfold schema_get.
  intros [(-> & Hm)|[(-> & Hm)|(Htitle & Hproperties & Hm)]].
  - by apply gives_read.
  - by apply gives_read.
  - apply String.eqb_neq in Htitle, Hproperties.
    rewrite Htitle, Hproperties. by apply gives_read.
Qed.

Lemma registryDefault_read (registry : ISettingRegistry.t) (key : string)
    (m : JSObject.member) :
  Spec.RegistryDefault registry key m ->
  m = PluginList.registryDefault key registry.
Proof.
  unfold PluginList.registryDefault, JSObject.get, JSObject.ofOwn.
  intros [(props & property & v & Hprops & Hproperty & Hdefault & ->)
         |(Hnone & ->)].
  - by rewrite Hprops, Hproperty, Hdefault.
  - destruct (properties (registry_schema registry)) as [props|]; [|done].
    destruct (props !! key) as [property|] eqn:Hproperty; [|done].
    rewrite (Hnone props property eq_refl Hproperty). reflexivity.
Qed.

(** For every key, registry and plugin each of the four sources gives a
    value, and by the three lemmas above only one: the premises of the
    statement below name the sources, they do not restrict the inputs. *)
Lemma hint_sources_total (key : string) (registry : ISettingRegistry.t)
    (plugin : IPlugin) :
  exists u c s r,
    Spec.UserValue JSObject.prototypeKeys plugin key u /\
    Spec.CompositeValue JSObject.prototypeKeys plugin key c /\
    Spec.SchemaValue JSObject.prototypeKeys plugin key s /\
    Spec.RegistryDefault registry key r.
Proof.
  assert (Hgives : forall own, exists m,
            Spec.Gives JSObject.prototypeKeys own key m).
  { intros [v|].
    - exists (JSObject.Data v). left. by exists v.
    - destruct (decide (key ∈ JSObject.prototypeKeys)).
      + exists JSObject.Inherited. right. by left.
      + exists JSObject.Undefined. right. by right. }
  destruct (Hgives (user (data plugin) !! key)) as [u Hu].
  destruct (Hgives (composite (data plugin) !! key)) as [c Hc].
  assert (Hschema : exists s,
            Spec.SchemaValue JSObject.prototypeKeys plugin key s).
  { destruct (decide (key = "title")) as [->|Htitle].
    { destruct (Hgives (JS.Str <$> title (schema plugin))) as [s Hs].
      exists s. by left. }
    destruct (decide (key = "properties")) as [->|Hproperties].
    { destruct (Hgives ((fun props => JS.Obj (JS.Obj <$> props))
                          <$> properties (schema plugin))) as [s Hs].
      exists s. right. by left. }
    destruct (Hgives (fields (schema plugin) !! key)) as [s Hs].
    exists s. right. by right. }
  destruct Hschema as [s Hs].
  exists u, c, s. unfold Spec.RegistryDefault.
  destruct (properties (registry_schema registry)) as [props|] eqn:Hprops;
    last by (exists JSObject.Undefined; repeat split; try done; right).
  destruct (props !! key) as [property|] eqn:Hproperty;
    last by (exists JSObject.Undefined; repeat split; try done; right;
             split; [intros ? ? [= <-]; congruence | done]).
  destruct (property !! "default") as [v|] eqn:Hdefault.
  - exists (JSObject.Data v). repeat split; try done.
    left. by exists props, property, v.
  - exists JSObject.Undefined. repeat split; try done. right.
    split; [|done]. intros ? ? [= <-]. congruence.
Qed.

(** C4, as amended.  [getHint] takes the user value, else the composite
    value, else the top-level value of the plugin schema, else the default
    that the registry schema declares for the key, each read as
    [obj[key]], passing over a source whose value is not set (falsy); the
    value found is returned when it is a string and the empty string
    otherwise.  In particular the result is empty when none of the four is a
    string. *)
Theorem getHint_priority (key : string) (registry : ISettingRegistry.t)
    (plugin : IPlugin) (u c s r : JSObject.member) :
  Spec.UserValue JSObject.prototypeKeys plugin key u ->
  Spec.CompositeValue JSObject.prototypeKeys plugin key c ->
  Spec.SchemaValue JSObject.prototypeKeys plugin key s ->
  Spec.RegistryDefault registry key r ->
  let hint := PluginList.getHint key registry plugin in
  hint = Spec.coerced (Spec.firstThat Spec.isSet [u; c; s; r]) /\
  (Spec.isSet u = true -> hint = Spec.coerced u) /\
  (Spec.isSet u = false -> Spec.isSet c = true -> hint = Spec.coerced c) /\
  (Spec.isSet u = false -> Spec.isSet c = false -> Spec.isSet s = true ->
   hint = Spec.coerced s) /\
  (Spec.isSet u = false -> Spec.isSet c = false -> Spec.isSet s = false ->
   hint = Spec.coerced r) /\
  (Spec.isString u = false -> Spec.isString c = false ->
   Spec.isString s = false -> Spec.isString r = false -> hint = "").
Proof.
  intros Hu%gives_read Hc%gives_read Hs%schemaValue_read Hr%registryDefault_read
    hint.
  assert (Hhint : hint = Spec.coerced (Spec.firstThat Spec.isSet [u; c; s; r])).
  { unfold hint, PluginList.getHint, JSObject.get. cbv zeta.
    rewrite <- Hu, <- Hc, <- Hs, <- Hr. simpl.
    rewrite !isSet_truthy.
    destruct (JSObject.truthy u) eqn:Eu; simpl; rewrite ?Eu; simpl; rewrite ?Eu;
      simpl; [reflexivity|].
    destruct (JSObject.truthy c) eqn:Ec; simpl; rewrite ?Ec; simpl; [reflexivity|].
    destruct (JSObject.truthy s) eqn:Es; simpl.
    - reflexivity.
    - destruct r as [[|[]|[q|negative|]|[|ch str]| |]| |]; simpl;
        try reflexivity; by case_match. }
  rewrite Hhint. simpl. repeat split.
  - by intros ->.
  - by intros -> ->.
  - by intros -> -> ->.
  - intros -> -> ->.
    destruct r as [[|[]|[q|negative|]|[|ch str]| |]| |]; simpl;
      try reflexivity; by case_match.
  - intros Eu Ec Es Er.
    destruct (Spec.isSet u); [by destruct u as [[]| |]|].
    destruct (Spec.isSet c); [by destruct c as [[]| |]|].
    destruct (Spec.isSet s); [by destruct s as [[]| |]|].
    destruct (Spec.isSet r); by destruct r as [[]| |].
Qed.

Lemma getHint_priority_witness :
  PluginList.getHint HintScene.LABEL Sample.hintRegistry HintScene.labelled
    = "From schema" /\
  PluginList.getHint "title" Sample.hintRegistry HintScene.labelled
    = "Labelled" /\
  PluginList.getHint HintScene.LABEL Sample.hintRegistry Sample.pluginA
    = "Plugin" /\
  PluginList.getHint "x" Sample.hintRegistry Sample.pluginA = "bar" /\
  PluginList.getHint "constructor" Sample.hintRegistry HintScene.constructed
    = "" /\
  PluginList.getHint "properties" Sample.hintRegistry Sample.pluginA = "".
Proof.
  assert (Hdata : forall (own : option JS.value) (key : string) (v : JS.value),
            own = Some v ->
            Spec.Gives JSObject.prototypeKeys own key (JSObject.Data v)).
  { intros own key v Hown. left. by exists v. }
  assert (Hnothing : forall (own : option JS.value) (key : string),
            own = None ->
            bool_decide (key ∈ JSObject.prototypeKeys) = false ->
            Spec.Gives JSObject.prototypeKeys own key JSObject.Undefined).
  { intros own key Hown Hkey%bool_decide_eq_false. right. by right. }
  assert (Hinherited : forall (own : option JS.value) (key : string),
            own = None ->
            bool_decide (key ∈ JSObject.prototypeKeys) = true ->
            Spec.Gives JSObject.prototypeKeys own key JSObject.Inherited).
  { intros own key Hown Hkey%bool_decide_eq_true. right. by left. }
  assert (Hdefault : Spec.RegistryDefault Sample.hintRegistry HintScene.LABEL
                       (JSObject.Data (JS.Str "Plugin"))).
  { left. by eexists _, _, _. }
  assert (Hundeclared : forall key : string,
            String.eqb key HintScene.LABEL = false ->
            Spec.RegistryDefault Sample.hintRegistry key JSObject.Undefined).
  { intros key Hkey%String.eqb_neq. right. split; [|done].
    intros props property [= <-] Hproperty.
    by rewrite lookup_singleton_ne in Hproperty. }
  repeat apply conj.
  - destruct (getHint_priority HintScene.LABEL Sample.hintRegistry
                HintScene.labelled JSObject.Undefined JSObject.Undefined
                (JSObject.Data (JS.Str "From schema"))
                (JSObject.Data (JS.Str "Plugin")))
      as (_ & _ & _ & Hschema & _).
    + by apply Hnothing.
    + by apply Hnothing.
    + right. right. repeat split; [done..|]. by apply Hdata.
    + exact Hdefault.
    + by apply Hschema.
  - destruct (getHint_priority "title" Sample.hintRegistry
                HintScene.labelled JSObject.Undefined JSObject.Undefined
                (JSObject.Data (JS.Str "Labelled")) JSObject.Undefined)
      as (_ & _ & _ & Hschema & _).
    + by apply Hnothing.
    + by apply Hnothing.
    + left. split; [done|]. by apply Hdata.
    + by apply Hundeclared.
    + by apply Hschema.
  - destruct (getHint_priority HintScene.LABEL Sample.hintRegistry
                Sample.pluginA JSObject.Undefined JSObject.Undefined
                JSObject.Undefined (JSObject.Data (JS.Str "Plugin")))
      as (_ & _ & _ & _ & Hregistry & _).
    + by apply Hnothing.
    + by apply Hnothing.
    + right. right. repeat split; [done..|]. by apply Hnothing.
    + exact Hdefault.
    + by apply Hregistry.
  - destruct (getHint_priority "x" Sample.hintRegistry Sample.pluginA
                (JSObject.Data (JS.Str "bar")) (JSObject.Data (JS.Str "bar"))
                JSObject.Undefined JSObject.Undefined)
      as (_ & Huser & _).
    + by apply Hdata.
    + by apply Hdata.
    + right. right. repeat split; [done..|]. by apply Hnothing.
    + by apply Hundeclared.
    + by apply Huser.
  - destruct (getHint_priority "constructor" Sample.hintRegistry
                HintScene.constructed JSObject.Inherited
                (JSObject.Data (JS.Str "x")) JSObject.Inherited
                JSObject.Undefined)
      as (_ & Huser & _).
    + by apply Hinherited.
    + by apply Hdata.
    + right. right. repeat split; [done..|]. by apply Hinherited.
    + by apply Hundeclared.
    + by apply Huser.
  - destruct (getHint_priority "properties" Sample.hintRegistry Sample.pluginA
                JSObject.Undefined JSObject.Undefined
                (JSObject.Data
                   (JS.Obj (JS.Obj <$> {[ "x" := {[ "type" := JS.Str "string";
                                                    "default" := JS.Str "foo" ]} ]})))
                JSObject.Undefined)
      as (_ & _ & _ & _ & _ & Hnone).
    + by apply Hnothing.
    + by apply Hnothing.
    + right. left. split; [done|]. by apply Hdata.
    + by apply Hundeclared.
    + by apply Hnone.
Defined.

(** C4, as stated, fails.  A user who has blanked the label still gets the
    label of the schema, so the first value there is does not decide; a
    default that is a number hides the label of the schema, so the first
    string does not decide either; and under a key that every object
    inherits, the inherited member decides before any value that is set. *)
Lemma getHint_not_first_given :
  PluginList.getHint HintScene.LABEL Sample.hintRegistry HintScene.blanked
    = "From schema" /\
  ~ Spec.HintReading Spec.given [] HintScene.LABEL
      Sample.hintRegistry HintScene.blanked /\
  ~ Spec.HintReading Spec.given JSObject.prototypeKeys HintScene.LABEL
      Sample.hintRegistry HintScene.blanked /\
  PluginList.getHint HintScene.LABEL Sample.hintRegistry HintScene.numbered
    = "" /\
  ~ Spec.HintReading Spec.isString [] HintScene.LABEL
      Sample.hintRegistry HintScene.numbered /\
  ~ Spec.HintReading Spec.isString JSObject.prototypeKeys HintScene.LABEL
      Sample.hintRegistry HintScene.numbered /\
  PluginList.getHint "constructor" Sample.hintRegistry HintScene.constructed
    = "" /\
  ~ Spec.HintReading Spec.isSet [] "constructor"
      Sample.hintRegistry HintScene.constructed.
Proof.
  assert (Hlabel : forall inherited : list string,
            bool_decide (HintScene.LABEL ∈ inherited) = false ->
            Spec.Gives inherited None HintScene.LABEL JSObject.Undefined).
  { intros inherited Hfresh%bool_decide_eq_false. right. by right. }
  assert (Hdefault : Spec.RegistryDefault Sample.hintRegistry HintScene.LABEL
                       (JSObject.Data (JS.Str "Plugin"))).
  { left. by eexists _, _, _. }
  assert (Hblanked : forall inherited : list string,
            ~ Spec.HintReading Spec.given inherited HintScene.LABEL
                Sample.hintRegistry HintScene.blanked).
  { intros inherited Hreading.
    specialize (Hreading (JSObject.Data (JS.Str "")) (JSObject.Data (JS.Str ""))
                  (JSObject.Data (JS.Str "From schema"))
                  (JSObject.Data (JS.Str "Plugin"))).
    discriminate Hreading; [left; by eexists ..| | done].
    right. right. repeat split; [done..|]. left. by eexists. }
  assert (Hnumbered : forall inherited : list string,
            bool_decide (HintScene.LABEL ∈ inherited) = false ->
            ~ Spec.HintReading Spec.isString inherited HintScene.LABEL
                Sample.hintRegistry HintScene.numbered).
  { intros inherited Hfresh Hreading.
    specialize (Hreading JSObject.Undefined
                  (JSObject.Data (JS.Num (JS.Finite 5)))
                  (JSObject.Data (JS.Str "From schema"))
                  (JSObject.Data (JS.Str "Plugin"))).
    discriminate Hreading; [by apply Hlabel | left; by eexists | | done].
    right. right. repeat split; [done..|]. left. by eexists. }
  repeat apply conj; try reflexivity.
  - apply Hblanked.
  - apply Hblanked.
  - by apply Hnumbered.
  - by apply Hnumbered.
  - intros Hreading.
    specialize (Hreading JSObject.Undefined (JSObject.Data (JS.Str "x"))
                  JSObject.Undefined JSObject.Undefined).
    discriminate Hreading.
    + right. right. repeat split. apply not_elem_of_nil.
    + left. by eexists.
    + right. right. repeat split; [done..|]. right. right.
      repeat split. apply not_elem_of_nil.
    + right. split; [|done]. by intros props property [= <-].
Qed.

(** * Further properties of the plugin list *)

(** ** The walk from the click target to the item *)

Lemma climb_spec (ident : option string) (above : list (option string)) :
  let found := PluginList.climb ident above in
  (PluginList.noId found = false /\
   exists before after,
     ident :: above = before ++ found :: after /\
     Forall (fun o => PluginList.noId o = true) before) \/
  (PluginList.noId found = true /\
   Forall (fun o => PluginList.noId o = true) (ident :: above)).
Proof.
  revert ident. induction above as [|parent above IH]; intros ident; simpl.
  - destruct (PluginList.noId ident) eqn:E; simpl.
    + right. rewrite E. by repeat constructor.
    + left. rewrite E. split; [done|]. exists [], []. by split.
  - destruct (PluginList.noId ident) eqn:E; simpl.
    + destruct (IH parent) as [(Hf & before & after & Heq & Hall)|(Hf & Hall)].
      * left. split; [done|]. exists (ident :: before), after.
        split; [by rewrite Heq | by constructor].
      * right. split; [done | by constructor].
    + left. rewrite E. split; [done|]. exists [], (parent :: above). by split.
Qed.

Lemma noId_false (o : option string) :
  PluginList.noId o = false <-> exists ident, o = Some ident /\ ident <> "".
Proof.
  destruct o as [s|]; simpl.
  - rewrite String.eqb_neq. split; [by eauto | by intros (? & [= <-] & ?)].
  - split; [done | by intros (? & ? & _)].
Qed.

(** X1.  The identifier passed to the confirmation hook is the first
    non-empty [data-id] met on the way from the click target up to the
    widget's node, unless the target itself carries the current selection;
    when no element on the way has one, the hook is not called. *)
Theorem clicked_nearest_item (w : PluginList.t) (event : PluginList.MouseEvent)
    (ident : string) :
  PluginList.clicked w event = Some ident <->
  PluginList.target event <> Some (PluginList._selection w) /\
  ident <> "" /\
  exists before after,
    PluginList.target event :: PluginList.ancestors event
      = before ++ Some ident :: after /\
    Forall (fun o => PluginList.noId o = true) before.
Proof.
  unfold PluginList.clicked. case_bool_decide as Hsel.
  { split; [done | by intros [? _]]. }
  pose proof (climb_spec (PluginList.target event) (PluginList.ancestors event))
    as Hclimb. simpl in Hclimb.
  destruct (PluginList.noId (PluginList.climb _ _)) eqn:Hfound.
  - split; [done|]. intros (_ & Hne & before & after & Heq & Hbefore).
    destruct Hclimb as [[? _]|[_ Hall]]; [done|].
    rewrite Heq in Hall. apply Forall_app in Hall as [_ Hall].
    apply Forall_cons in Hall as [Hident _]. simpl in Hident.
    by apply String.eqb_eq in Hident.
  - destruct Hclimb as [(_ & before & after & Heq & Hbefore)|[? _]]; [|done].
    apply noId_false in Hfound as (found & Hfound & Hne).
    rewrite Hfound in *. split.
    + intros [= <-]. repeat split; eauto.
    + intros (_ & Hne' & before' & after' & Heq' & Hbefore').
      f_equal. rewrite Heq in Heq'.
      assert (Hfirst : forall (b1 b2 : list (option string)) x1 x2 a1 a2,
        b1 ++ Some x1 :: a1 = b2 ++ Some x2 :: a2 ->
        x1 <> "" -> x2 <> "" ->
        Forall (fun o => PluginList.noId o = true) b1 ->
        Forall (fun o => PluginList.noId o = true) b2 -> x1 = x2).
      { clear. induction b1 as [|y b1 IH]; intros [|z b2] x1 x2 a1 a2; simpl.
        - by intros [= ->].
        - intros [= <- _] Hx1 _ _ [Hz _]%Forall_cons. simpl in Hz.
          by apply String.eqb_eq in Hz.
        - intros [= -> _] _ Hx2 [Hy _]%Forall_cons _. simpl in Hy.
          by apply String.eqb_eq in Hy.
        - intros [= _ Heq] Hx1 Hx2 [_ H1]%Forall_cons [_ H2]%Forall_cons.
          by eapply IH. }
      by eapply Hfirst.
Qed.

(** ** Clicking the selected item *)

Lemma climb_stop (ident : option string) (above : list (option string)) :
  PluginList.noId ident = false -> PluginList.climb ident above = ident.
Proof. intros Hid. destruct above; simpl; by rewrite Hid. Qed.

(** X2.  A click whose target is the selected item itself is ignored: the
    hook is not called and nothing changes.  A click on an element inside
    the selected item is not: it goes through the confirmation hook again
    and, once confirmed, emits ["changed"] although the selection stays
    what it was. *)
Theorem click_on_selected_item (w : PluginList.t) (event : PluginList.MouseEvent) :
  (PluginList.target event = Some (PluginList._selection w) ->
   PluginList._evtMousedown event w = (w, [PreventDefault])) /\
  (forall above,
   PluginList._selection w <> "" ->
   PluginList.target event = None ->
   PluginList.ancestors event = Some (PluginList._selection w) :: above ->
   PluginList._confirm w (PluginList._selection w) = JS.Fulfilled tt ->
   PluginList.selection (fst (PluginList._evtMousedown event w))
     = PluginList.selection w /\
   snd (PluginList._evtMousedown event w)
     = [PreventDefault; CallConfirm (PluginList._selection w);
        Emit "changed"; UpdateRequest]).
Proof.
  split.
  - intros Htarget. unfold PluginList._evtMousedown, PluginList.clicked.
    by rewrite bool_decide_eq_true_2.
  - intros above Hne Htarget Habove Hok.
    assert (Hclick : PluginList.clicked w event = Some (PluginList._selection w)).
    { unfold PluginList.clicked. rewrite Htarget, Habove.
      rewrite bool_decide_eq_false_2 by discriminate.
      apply String.eqb_neq in Hne. simpl.
      rewrite (climb_stop (Some (PluginList._selection w)) above) by done.
      simpl. by rewrite Hne. }
    unfold PluginList._evtMousedown. rewrite Hclick, Hok. by simpl.
Qed.

Lemma click_on_selected_item_witness :
  PluginList._evtMousedown Scene.clickOnItemA Scene.selectedA
    = (Scene.selectedA, [PreventDefault]) /\
  snd (PluginList._evtMousedown Sample.clickOnA Scene.selectedA)
    = [PreventDefault; CallConfirm "a"; Emit "changed"; UpdateRequest].
Proof.
  split.
  - apply (proj1 (click_on_selected_item Scene.selectedA Scene.clickOnItemA)).
    reflexivity.
  - apply (proj2 (click_on_selected_item Scene.selectedA Sample.clickOnA)
             [None; None]); [discriminate | reflexivity..].
Defined.

(** ** The scroll position across a re-render *)

(** X3.  The scroll position of the list at the moment a selection is
    confirmed is written back on the next update request, whatever the
    re-render did to it in between.  When no list was rendered at that
    moment nothing is stored, and the update request leaves the list where
    the re-render put it. *)
Theorem scroll_position_restored (w : PluginList.t)
    (event : PluginList.MouseEvent) (ident : string) (reset : JS.number) :
  PluginList.clicked w event = Some ident ->
  PluginList._confirm w ident = JS.Fulfilled tt ->
  let after :=
    fst (PluginList.run
           [PluginList.Mousedown event; PluginList.DomChanged (Some reset);
            PluginList.UpdateRequested] w) in
  (forall top, PluginList.ul w = Some top -> PluginList.ul after = Some top) /\
  (PluginList.ul w = None -> PluginList.ul after = Some reset).
Proof.
  intros Hclick Hok. simpl. unfold PluginList._evtMousedown.
  rewrite Hclick, Hok. simpl. unfold PluginList.onUpdateRequest. simpl.
  unfold PluginList.scrollTop.
  split; [intros top Htop | intros Htop]; by rewrite Htop.
Qed.

Lemma scroll_position_restored_witness :
  PluginList.ul
    (fst (PluginList.run
            [PluginList.Mousedown Sample.clickOnA;
             PluginList.DomChanged (Some (JS.Finite 0));
             PluginList.UpdateRequested] Scene.scrolled))
  = Some (JS.Finite 120).
Proof.
  apply (proj1 (scroll_position_restored Scene.scrolled Sample.clickOnA "a"
                  (JS.Finite 0) eq_refl eq_refl)).
  reflexivity.
Defined.

(** ** The scan and the update requests it makes *)

Lemma findById_self (l : list IPlugin) (p : IPlugin) :
  p ∈ l -> PluginList.findById l p = true.
Proof.
  intros Hp. apply findById_spec. by apply list_elem_of_fmap_2.
Qed.

Lemma all_found_in_self (l : list IPlugin) :
  existsb (fun plugin => negb (PluginList.findById l plugin)) l = false.
Proof.
  apply not_true_iff_false. intros (p & Hp & Hnot)%existsb_exists.
  apply list_elem_of_In in Hp. by rewrite (findById_self l p Hp) in Hnot.
Qed.

(** X4.  A scan that is repeated with the same loads changes nothing and
    requests no update, so the cycle of update request and scan comes to
    rest after the scan that stored a new list. *)
Theorem scan_settles (load : string -> JS.promise Settings) (w : PluginList.t) :
  let first := PluginList.updateModifiedPlugins load w in
  let second := PluginList.updateModifiedPlugins load (fst (fst first)) in
  fst (fst second) = fst (fst first) /\
  snd second = snd first /\
  UpdateRequest ∉ snd (fst second).
Proof.
  pose proof (scan_only_loads load (PluginList._allPlugins w) []) as Hloads.
  assert (Hnone : forall tr : list effect,
    Forall (fun e => exists ident, e = CallLoad ident) tr -> UpdateRequest ∉ tr).
  { intros tr Hall Hin. rewrite Forall_forall in Hall.
    by destruct (Hall _ Hin) as [? ?]. }
  destruct (PluginList.scanPlugins load (PluginList._allPlugins w) [])
    as [[modified|reason|] tr] eqn:Hscan; simpl in Hloads.
  - assert (Hset : forall w', PluginList._allPlugins w' = PluginList._allPlugins w ->
      PluginList._modifiedPlugins w' = modified ->
      PluginList.updateModifiedPlugins load w' = (w', tr, JS.Fulfilled tt)).
    { intros w' Hall Hmod. unfold PluginList.updateModifiedPlugins.
      rewrite Hall, Hscan, Hmod, Nat.eqb_refl. simpl.
      by rewrite all_found_in_self. }
    assert (Hfirst :
      PluginList.updateModifiedPlugins load w = (w, tr, JS.Fulfilled tt) \/
      exists last, PluginList.updateModifiedPlugins load w =
        (PluginList.with_modifiedPlugins modified w, last, JS.Fulfilled tt)).
    { unfold PluginList.updateModifiedPlugins. rewrite Hscan.
      destruct (negb _); [by eauto|]. destruct (existsb _ _); by eauto. }
    destruct Hfirst as [Hfirst|[last Hfirst]]; rewrite Hfirst; simpl.
    + rewrite Hfirst. simpl. auto.
    + rewrite Hset by done. simpl. auto.
  - assert (Hfirst : PluginList.updateModifiedPlugins load w
                     = (w, tr, JS.Rejected reason)).
    { unfold PluginList.updateModifiedPlugins. by rewrite Hscan. }
    rewrite Hfirst. simpl. rewrite Hfirst. simpl. auto.
  - assert (Hfirst : PluginList.updateModifiedPlugins load w = (w, tr, JS.Pending)).
    { unfold PluginList.updateModifiedPlugins. by rewrite Hscan. }
    rewrite Hfirst. simpl. rewrite Hfirst. simpl. auto.
Qed.

(** X5.  The scan requests an update exactly when it has changed the stored
    list of modified plugins. *)
Theorem scan_requests_update_iff_changed (load : string -> JS.promise Settings)
    (w : PluginList.t) :
  let result := PluginList.updateModifiedPlugins load w in
  UpdateRequest ∈ snd (fst result) <->
  PluginList._modifiedPlugins (fst (fst result)) <> PluginList._modifiedPlugins w.
Proof.
  pose proof (scan_only_loads load (PluginList._allPlugins w) []) as Hloads.
  assert (Hnone : forall tr : list effect,
    Forall (fun e => exists ident, e = CallLoad ident) tr -> UpdateRequest ∉ tr).
  { intros tr Hall Hin. rewrite Forall_forall in Hall.
    by destruct (Hall _ Hin) as [? ?]. }
  unfold PluginList.updateModifiedPlugins.
  destruct (PluginList.scanPlugins load (PluginList._allPlugins w) [])
    as [[modified|reason|] tr]; simpl in *.
  - destruct (negb _) eqn:Hlen; simpl.
    { split; [intros _ Heq | intros _].
      - rewrite Heq, Nat.eqb_refl in Hlen. discriminate.
      - apply elem_of_app. right. by left. }
    destruct (existsb _ modified) eqn:Hfind; simpl.
    { split; [intros _ Heq | intros _].
      - rewrite Heq, all_found_in_self in Hfind. discriminate.
      - apply elem_of_app. right. by left. }
    split; [intros Hin; by apply Hnone in Hin | done].
  - split; [intros Hin; by apply Hnone in Hin | done].
  - split; [intros Hin; by apply Hnone in Hin | done].
Qed.

Lemma scan_stuck (load : string -> JS.promise Settings)
    (before after acc : list IPlugin) (p : IPlugin) :
  Forall (Spec.loaded load) before ->
  ~ Spec.loaded load p ->
  exists stuck,
    PluginList.scanPlugins load (before ++ p :: after) acc =
      (stuck, (fun q => CallLoad (id q)) <$> (before ++ [p])) /\
    forall modified, stuck <> JS.Fulfilled modified.
Proof.
  intros Hall Hnot. revert acc.
  induction Hall as [|q qs [s Hs] _ IH]; intros acc; simpl.
  - destruct (load (id p)) as [s| |] eqn:Hp.
    + exfalso. apply Hnot. by exists s.
    + by eexists.
    + by eexists.
  - rewrite Hs.
    destruct (IH (if (0 <? length (modifiedFields s))%nat
                  then acc ++ [q] else acc)) as (stuck & -> & Hstuck).
    by exists stuck.
Qed.

Lemma first_not_loaded (load : string -> JS.promise Settings) (ps : list IPlugin) :
  Forall (Spec.loaded load) ps \/
  exists before p after,
    ps = before ++ p :: after /\
    Forall (Spec.loaded load) before /\ ~ Spec.loaded load p.
Proof.
  induction ps as [|q ps IH]; [by left|].
  destruct (load (id q)) as [s| |] eqn:Hq.
  - destruct IH as [Hall|(before & p & after & -> & Hbefore & Hp)].
    + left. constructor; [by exists s | done].
    + right. exists (q :: before), p, after. repeat split; [|done].
      constructor; [by exists s | done].
  - right. exists [], q, ps. repeat split; [done|]. intros [s Hs]. congruence.
  - right. exists [], q, ps. repeat split; [done|]. intros [s Hs]. congruence.
Qed.

(** X6.  Whatever the loads do, the scan loads the plugins of the filtered
    list in its order, each once, up to the first load that is not
    fulfilled.  When all are fulfilled it completes, with at most one update
    request as its last act; otherwise it loads nothing after the plugin
    that failed to load, does not complete normally and leaves the widget
    as it was. *)
Theorem scan_loads_in_order (load : string -> JS.promise Settings)
    (w : PluginList.t) :
  let result := PluginList.updateModifiedPlugins load w in
  (Forall (Spec.loaded load) (PluginList._allPlugins w) /\
   snd result = JS.Fulfilled tt /\
   exists last,
     snd (fst result) =
       ((fun p => CallLoad (id p)) <$> PluginList._allPlugins w) ++ last /\
     (last = [] \/ last = [UpdateRequest])) \/
  (exists before p after,
     PluginList._allPlugins w = before ++ p :: after /\
     Forall (Spec.loaded load) before /\
     ~ Spec.loaded load p /\
     snd (fst result) = (fun q => CallLoad (id q)) <$> (before ++ [p]) /\
     fst (fst result) = w /\
     snd result <> JS.Fulfilled tt).
Proof.
  destruct (first_not_loaded load (PluginList._allPlugins w))
    as [Hall|(before & p & after & Hsplit & Hbefore & Hp)].
  - left. split; [done|]. unfold PluginList.updateModifiedPlugins.
    rewrite (scan_loaded load _ [] Hall). simpl.
    destruct (negb _); simpl; [by eauto|].
    destruct (existsb _ _); simpl; [by eauto|].
    split; [done|]. exists []. by rewrite app_nil_r; auto.
  - right. exists before, p, after. do 3 (split; [done|]).
    unfold PluginList.updateModifiedPlugins. rewrite Hsplit.
    destruct (scan_stuck load before after [] p Hbefore Hp) as (stuck & -> & Hstuck).
    destruct stuck as [modified|reason|]; [by specialize (Hstuck modified)|..];
      by simpl.
Qed.

(** ** What every reachable state of the list keeps *)

Lemma filter_sublist {A : Type} (f : A -> bool) (l : list A) :
  List.filter f l `sublist_of` l.
Proof.
  induction l as [|x l IH]; simpl; [constructor|].
  destruct (f x); by constructor.
Qed.

Lemma StronglySorted_filter {A : Type} (R : A -> A -> Prop) (f : A -> bool)
    (l : list A) :
  StronglySorted R l -> StronglySorted R (List.filter f l).
Proof.
  induction 1 as [|x l Hl IH Hx]; simpl; [constructor|].
  destruct (f x); [|done]. constructor; [done|].
  apply Forall_forall. intros y Hy%list_elem_of_In%filter_In.
  rewrite Forall_forall in Hx. apply Hx, list_elem_of_In, Hy.
Qed.

Lemma sortPlugins_sorted_stably_parts (localeCompare : string -> string -> Z)
    (registry : ISettingRegistry.t) :
  Spec.Consistent localeCompare ->
  PluginList.sortPlugins localeCompare registry ≡ₚ plugin_values registry /\
  StronglySorted
    (fun a b : IPlugin =>
       (localeCompare (PluginList.sortKey a) (PluginList.sortKey b) <= 0)%Z)
    (PluginList.sortPlugins localeCompare registry).
Proof.
  intros [Hflip Htrans]. unfold PluginList.sortPlugins.
  split; [apply sort_perm|].
  apply (sort_sorted (fun a b : IPlugin =>
           localeCompare (PluginList.sortKey a) (PluginList.sortKey b))).
  - intros a b. apply Hflip.
  - intros a b c. apply Htrans.
Qed.

(** X7.  In every state the list can reach, [_allPlugins] is still the
    list the constructor computed, in sorted order, and the modified
    plugins are a sublist of it, hence sorted as well: both sections of the
    list are always shown in the order of [sortPlugins]. *)
Theorem reachable_lists_sorted (localeCompare : string -> string -> Z)
    (options : PluginList.IOptions) (script : list PluginList.action) :
  Spec.Consistent localeCompare ->
  let w := fst (PluginList.run script (PluginList.new localeCompare options)) in
  let inOrder := fun a b : IPlugin =>
    (localeCompare (PluginList.sortKey a) (PluginList.sortKey b) <= 0)%Z in
  PluginList._allPlugins w =
    List.filter PluginList.hasSettings
      (PluginList.sortPlugins localeCompare (PluginList.options_registry options)) /\
  StronglySorted inOrder (PluginList._allPlugins w) /\
  PluginList._modifiedPlugins w `sublist_of` PluginList._allPlugins w /\
  StronglySorted inOrder (PluginList._modifiedPlugins w).
Proof.
  intros Hcmp w inOrder.
  pose proof (run_allPlugins script (PluginList.new localeCompare options)) as Hall.
  destruct (run_within script _ (new_within localeCompare options)) as [keep Hkeep].
  fold w in Hall, Hkeep.
  destruct (sortPlugins_sorted_stably_parts localeCompare
              (PluginList.options_registry options) Hcmp) as [_ Hsorted].
  assert (Hsorted' : StronglySorted inOrder (PluginList._allPlugins w)).
  { rewrite Hall. simpl. by apply StronglySorted_filter. }
  split; [by rewrite Hall|]. split; [done|]. rewrite Hkeep.
  split; [apply filter_sublist | by apply StronglySorted_filter].
Qed.

Lemma reachable_lists_sorted_witness :
  PluginList._allPlugins
    (fst (PluginList.run [PluginList.Mousedown Sample.clickOnA;
                          PluginList.ScanFinished Sample.loadAll]
            Sample.scenarioList))
  = [Sample.unloadable; Sample.pluginA; Sample.plainA].
Proof.
  etransitivity.
  - apply (reachable_lists_sorted ordinalCompare Sample.scenarioOptions
             [PluginList.Mousedown Sample.clickOnA;
              PluginList.ScanFinished Sample.loadAll]
             ordinalCompare_consistent).
  - reflexivity.
Defined.

(** ** The rendered list *)

Lemma filter_complement_perm {A : Type} (keep : A -> bool) (l : list A) :
  List.filter keep l ++ List.filter (fun x => negb (keep x)) l ≡ₚ l.
Proof.
  induction l as [|x l IH]; simpl; [done|].
  destruct (keep x); simpl.
  - by rewrite IH.
  - by rewrite <- Permutation_middle, IH.
Qed.

Lemma render_sections_perm (keep : IPlugin -> bool) (l : list IPlugin) :
  List.filter keep l ++
  List.filter (fun p => negb (PluginListView.includes (List.filter keep l) p)) l
  ≡ₚ l.
Proof.
  rewrite <- (filter_complement_perm keep l) at 3.
  f_equiv. apply reflexive_eq, filter_ext_in. intros p Hp.
  f_equal. unfold PluginListView.includes.
  destruct (keep p) eqn:Hk.
  - apply bool_decide_eq_true_2, list_elem_of_In, filter_In. by split.
  - apply bool_decide_eq_false_2.
    intros Hin%list_elem_of_In%filter_In. destruct Hin. congruence.
Qed.

Lemma render_items (_p : string -> string -> string) (w : PluginList.t) :
  PluginListView.items (fst (PluginListView.render _p w)) =
  PluginListView.mapPlugins _p w <$>
    (PluginList._modifiedPlugins w ++
     List.filter
       (fun p => negb (PluginListView.includes (PluginList._modifiedPlugins w) p))
       (PluginList._allPlugins w)).
Proof.
  unfold PluginListView.items, PluginListView.render. simpl.
  rewrite fmap_app. f_equal.
  destruct (PluginList._modifiedPlugins w); reflexivity.
Qed.

(** X8.  In every state the list can reach over a registry with one plugin
    per identifier, the rendered view lists every filtered plugin exactly
    once, in the "Modified" section or in the "Settings" section; the
    "Modified" section is present exactly when some plugin is modified. *)
Theorem render_lists_each_plugin_once (localeCompare : string -> string -> Z)
    (options : PluginList.IOptions) (script : list PluginList.action)
    (_p : string -> string -> string) :
  NoDup (id <$> plugin_values (PluginList.options_registry options)) ->
  let w := fst (PluginList.run script (PluginList.new localeCompare options)) in
  let view := fst (PluginListView.render _p w) in
  PluginListView.items view
    ≡ₚ PluginListView.mapPlugins _p w <$> PluginList._allPlugins w /\
  NoDup (PluginListView.data_id <$> PluginListView.items view) /\
  (is_Some (PluginListView.modifiedSection view)
     <-> PluginList._modifiedPlugins w <> []).
Proof.
  intros Hnd w view.
  pose proof (run_allPlugins script (PluginList.new localeCompare options)) as Hall.
  destruct (run_within script _ (new_within localeCompare options)) as [keep Hkeep].
  pose proof (new_NoDup_ids localeCompare options Hnd) as Hnd'.
  fold w in Hall, Hkeep. rewrite <- Hall in Hnd'.
  assert (Hperm : PluginListView.items view
    ≡ₚ PluginListView.mapPlugins _p w <$> PluginList._allPlugins w).
  { unfold view. rewrite render_items, Hkeep. by rewrite render_sections_perm. }
  split; [done|]. split.
  - rewrite Hperm, <- list_fmap_compose. exact Hnd'.
  - unfold view, PluginListView.render. simpl.
    destruct (PluginList._modifiedPlugins w); simpl.
    + split; [by intros [? ?] | done].
    + split; [done | by eauto].
Qed.

Lemma render_lists_each_plugin_once_witness :
  NoDup (PluginListView.data_id <$>
    PluginListView.items
      (fst (PluginListView.render (fun _ text => text)
              (fst (PluginList.run [PluginList.ScanFinished Sample.loadAll]
                      Sample.scenarioList))))) /\
  is_Some (PluginListView.modifiedSection
      (fst (PluginListView.render (fun _ text => text)
              (fst (PluginList.run [PluginList.ScanFinished Sample.loadAll]
                      Sample.scenarioList))))).
Proof.
  assert (Hnd : NoDup (id <$> plugin_values
                         (PluginList.options_registry Sample.scenarioOptions))).
  { apply (bool_decide_unpack _). vm_compute. exact I. }
  destruct (render_lists_each_plugin_once ordinalCompare Sample.scenarioOptions
              [PluginList.ScanFinished Sample.loadAll] (fun _ text => text) Hnd)
    as (_ & Hdistinct & Hmodified).
  split; [exact Hdistinct|]. apply Hmodified. discriminate.
Defined.

Lemma filter_length_perm {A : Type} (f : A -> bool) (l1 l2 : list A) :
  l1 ≡ₚ l2 -> length (List.filter f l1) = length (List.filter f l2).
Proof.
  induction 1 as [|x l1 l2 _ IH|x y l|l1 l2 l3 _ IH1 _ IH2]; simpl.
  - done.
  - destruct (f x); simpl; by rewrite IH.
  - by destruct (f x), (f y).
  - by rewrite IH1.
Qed.

Lemma count_id (sel : string) (l : list IPlugin) :
  NoDup (id <$> l) ->
  length (List.filter (fun p => String.eqb (id p) sel) l) =
  if bool_decide (sel ∈ id <$> l) then 1%nat else 0%nat.
Proof.
  induction l as [|x l IH]; simpl; [done|].
  rewrite NoDup_cons. intros [Hx Hl]. specialize (IH Hl).
  destruct (String.eqb (id x) sel) eqn:E; simpl.
  - apply String.eqb_eq in E. subst sel.
    rewrite bool_decide_eq_true_2 by by left.
    rewrite bool_decide_eq_false_2 in IH by done. by rewrite IH.
  - apply String.eqb_neq in E. rewrite IH.
    case_bool_decide as H1; case_bool_decide as H2; try done; exfalso.
    + apply H2. by right.
    + apply elem_of_cons in H2 as [?|?]; [congruence | done].
Qed.

Lemma selected_count (_p : string -> string -> string) (w : PluginList.t)
    (l : list IPlugin) :
  length (List.filter
            (fun item => String.eqb (PluginListView.className item) "jp-mod-selected")
            (PluginListView.mapPlugins _p w <$> l)) =
  length (List.filter (fun p => String.eqb (id p) (PluginList.selection w)) l).
Proof.
  induction l as [|p l IH]; [done|].
  rewrite fmap_cons. cbn [List.filter].
  change (PluginListView.className (PluginListView.mapPlugins _p w p))
    with (if String.eqb (id p) (PluginList.selection w)
          then "jp-mod-selected" else "").
  destruct (String.eqb (id p) (PluginList.selection w)); simpl; by rewrite IH.
Qed.

(** X9.  Under the same conditions the rendered view marks exactly one
    item as selected when the selection is the identifier of a filtered
    plugin, and none otherwise. *)
Theorem render_marks_selection_once (localeCompare : string -> string -> Z)
    (options : PluginList.IOptions) (script : list PluginList.action)
    (_p : string -> string -> string) :
  NoDup (id <$> plugin_values (PluginList.options_registry options)) ->
  let w := fst (PluginList.run script (PluginList.new localeCompare options)) in
  let view := fst (PluginListView.render _p w) in
  length (PluginListView.selectedItems view) =
  if bool_decide (PluginList.selection w ∈ id <$> PluginList._allPlugins w)
  then 1%nat else 0%nat.
Proof.
  intros Hnd w view.
  pose proof (run_allPlugins script (PluginList.new localeCompare options)) as Hall.
  destruct (run_within script _ (new_within localeCompare options)) as [keep Hkeep].
  pose proof (new_NoDup_ids localeCompare options Hnd) as Hnd'.
  fold w in Hall, Hkeep. rewrite <- Hall in Hnd'.
  unfold PluginListView.selectedItems.
  rewrite (filter_length_perm _ _
             (PluginListView.mapPlugins _p w <$> PluginList._allPlugins w)).
  2:{ unfold view. rewrite render_items, Hkeep. by rewrite render_sections_perm. }
  rewrite <- (count_id _ _ Hnd'). apply selected_count.
Qed.

Lemma render_marks_selection_once_witness :
  length (PluginListView.selectedItems
    (fst (PluginListView.render (fun _ text => text)
            (fst (PluginList.run [PluginList.Mousedown Sample.clickOnA]
                    Sample.scenarioList))))) = 1%nat.
Proof.
  etransitivity.
  - apply (render_marks_selection_once ordinalCompare Sample.scenarioOptions
             [PluginList.Mousedown Sample.clickOnA] (fun _ text => text)).
    apply (bool_decide_unpack _). vm_compute. exact I.
  - reflexivity.
Defined.

(** * Further properties of the raw plugin editor *)

Lemma layout_step (a : RawPluginEditorLayout.action) (w : RawPluginEditorLayout.t) :
  (is_Some (RawPluginEditorLayout._settings w) <->
   RawPluginEditorLayout.instructions_isHidden w = true) ->
  (is_Some (RawPluginEditorLayout._settings w) ->
   RawPluginEditorLayout.rawEditor_isHidden w = false) ->
  let w' := RawPluginEditorLayout.step a w in
  (is_Some (RawPluginEditorLayout._settings w') <->
   RawPluginEditorLayout.instructions_isHidden w' = true) /\
  (is_Some (RawPluginEditorLayout._settings w') ->
   RawPluginEditorLayout.rawEditor_isHidden w' = false).
Proof.
  intros Hinstr Hraw. destruct a as [settings|]; simpl.
  - unfold RawPluginEditorLayout.set_settings. case_bool_decide as Hsame; [done|].
    destruct settings as [s|]; simpl.
    + destruct (RawPluginEditorLayout.instructions_isHidden w) eqn:Hi; simpl.
      * split; [done|]. intros _. apply Hraw, Hinstr. done.
      * split; [done|]. done.
    + split; [|by intros [? ?]]. split; [by intros [? ?] | done].
  - unfold RawPluginEditorLayout.onUpdateRequest.
    destruct (RawPluginEditorLayout._settings w) as [s|] eqn:Hs; simpl.
    + rewrite ?Hs. done.
    + rewrite ?Hs. split; [|by intros [? ?]]. split; [by intros [? ?] | done].
Qed.

(** X10.  Whatever sequence of settings assignments and update requests the
    raw plugin editor receives, the instructions are hidden exactly when
    settings are set, and the raw editor is visible whenever they are.
    After an update request exactly one of the two children is hidden. *)
Theorem raw_editor_children_visibility (rawHidden : bool)
    (rawSettings : option RawPluginEditorLayout.ISettings)
    (script : list RawPluginEditorLayout.action) :
  let w := RawPluginEditorLayout.run script
             (RawPluginEditorLayout.new rawHidden rawSettings) in
  (is_Some (RawPluginEditorLayout._settings w) <->
   RawPluginEditorLayout.instructions_isHidden w = true) /\
  (is_Some (RawPluginEditorLayout._settings w) ->
   RawPluginEditorLayout.rawEditor_isHidden w = false) /\
  RawPluginEditorLayout.rawEditor_isHidden (RawPluginEditorLayout.onUpdateRequest w)
    = negb (RawPluginEditorLayout.instructions_isHidden
              (RawPluginEditorLayout.onUpdateRequest w)).
Proof.
  assert (Hinv : forall w0,
    (is_Some (RawPluginEditorLayout._settings w0) <->
     RawPluginEditorLayout.instructions_isHidden w0 = true) ->
    (is_Some (RawPluginEditorLayout._settings w0) ->
     RawPluginEditorLayout.rawEditor_isHidden w0 = false) ->
    let w := RawPluginEditorLayout.run script w0 in
    (is_Some (RawPluginEditorLayout._settings w) <->
     RawPluginEditorLayout.instructions_isHidden w = true) /\
    (is_Some (RawPluginEditorLayout._settings w) ->
     RawPluginEditorLayout.rawEditor_isHidden w = false)).
  { induction script as [|a rest IH]; intros w0 H1 H2; simpl; [done|].
    destruct (layout_step a w0 H1 H2) as [H1' H2']. by apply IH. }
  intros w.
  destruct (Hinv (RawPluginEditorLayout.new rawHidden rawSettings)) as [H1 H2].
  { simpl. split; [by intros [? ?] | done]. }
  { simpl. by intros [? ?]. }
  fold w in H1, H2. split; [done|]. split; [done|].
  unfold RawPluginEditorLayout.onUpdateRequest.
  destruct (RawPluginEditorLayout._settings w) as [s|] eqn:Hs; simpl; [|done].
  rewrite H2 by done. by rewrite (proj1 H1).
Qed.

(** * Properties of the settings metadata editor *)

(** ** Tags *)

Lemma collectTags_elem (tag : string) (ts acc : list string) :
  tag ∈ SettingsMetadataEditor.collectTags acc ts <-> tag ∈ acc \/ tag ∈ ts.
Proof.
  unfold SettingsMetadataEditor.collectTags.
  revert acc. induction ts as [|t ts IH]; intros acc; simpl.
  - rewrite elem_of_nil. tauto.
  - rewrite IH, elem_of_cons. case_bool_decide as Hin.
    + split; [tauto|]. intros [?|[->|?]]; tauto.
    + rewrite elem_of_app, list_elem_of_singleton. tauto.
Qed.

Lemma collectTags_prefix (ts acc : list string) :
  acc `prefix_of` SettingsMetadataEditor.collectTags acc ts.
Proof.
  unfold SettingsMetadataEditor.collectTags.
  revert acc. induction ts as [|t ts IH]; intros acc; simpl; [done|].
  case_bool_decide; [apply IH|].
  etransitivity; [|apply IH]. by apply prefix_app_r.
Qed.

Lemma collectTags_NoDup (ts acc : list string) :
  NoDup acc -> NoDup (SettingsMetadataEditor.collectTags acc ts).
Proof.
  unfold SettingsMetadataEditor.collectTags.
  revert acc. induction ts as [|t ts IH]; intros acc Hnd; simpl; [done|].
  case_bool_decide as Hin; apply IH; [done|].
  apply NoDup_app. split; [done|]. split; [|apply NoDup_singleton].
  intros x Hx ->%list_elem_of_singleton. done.
Qed.

Lemma visitAll_tags (editorName : string) (entries : list SettingsMetadataEditor.IMetadata)
    (acc : SettingsMetadataEditor.Selected) :
  let visited := SettingsMetadataEditor.visitAll editorName acc entries in
  let tagsAfter := SettingsMetadataEditor.sel_allTags (snd visited) in
  SettingsMetadataEditor.sel_allTags acc `prefix_of` tagsAfter /\
  (NoDup (SettingsMetadataEditor.sel_allTags acc) -> NoDup tagsAfter) /\
  (forall tag, tag ∈ tagsAfter <->
     tag ∈ SettingsMetadataEditor.sel_allTags acc \/
     exists entry ts,
       entry ∈ entries /\
       SettingsMetadataEditor.tags (SettingsMetadataEditor.md_metadata entry) = Some ts /\
       tag ∈ ts) /\
  Forall (fun entry => is_Some (SettingsMetadataEditor.tags
                                  (SettingsMetadataEditor.md_metadata entry)))
         (fst visited) /\
  SettingsMetadataEditor.md_name <$> fst visited
    = SettingsMetadataEditor.md_name <$> entries.
Proof.
  revert acc. induction entries as [|entry rest IH]; intros acc; simpl.
  - repeat split; try done; [by left|].
    intros [?|(e & ts & He & _)]; [done | by apply elem_of_nil in He].
  - destruct (SettingsMetadataEditor.visit editorName acc entry)
      as [entry' acc'] eqn:Hvisit.
    specialize (IH acc').
    destruct (SettingsMetadataEditor.visitAll editorName acc' rest)
      as [rest' acc''] eqn:Hrest. simpl in *.
    destruct IH as (Hpre & Hnd & Hmem & Hdef & Hnames).
    assert (Hstep :
      SettingsMetadataEditor.sel_allTags acc' =
        SettingsMetadataEditor.collectTags (SettingsMetadataEditor.sel_allTags acc)
          (default [] (SettingsMetadataEditor.tags
                         (SettingsMetadataEditor.md_metadata entry))) /\
      is_Some (SettingsMetadataEditor.tags
                 (SettingsMetadataEditor.md_metadata entry')) /\
      SettingsMetadataEditor.md_name entry' = SettingsMetadataEditor.md_name entry).
    { unfold SettingsMetadataEditor.visit in Hvisit.
      destruct (SettingsMetadataEditor.tags
                  (SettingsMetadataEditor.md_metadata entry)) as [ts|] eqn:Hts;
        destruct (String.eqb editorName (SettingsMetadataEditor.md_name entry));
        simplify_eq/=; rewrite ?Hts; eauto. }
    destruct Hstep as (Htags & Hsome & Hname).
    split; [|split; [|split; [|split]]].
    + etransitivity; [|exact Hpre]. rewrite Htags. apply collectTags_prefix.
    + intros Hacc. apply Hnd. rewrite Htags. by apply collectTags_NoDup.
    + intros tag. rewrite Hmem, Htags, collectTags_elem. split.
      * intros [[?|Hin]|(e & ts & He & Hts & Hin)]; [by left| |].
        -- right.
           destruct (SettingsMetadataEditor.tags
                       (SettingsMetadataEditor.md_metadata entry)) as [ts|] eqn:Hts;
             simpl in Hin; [|by apply elem_of_nil in Hin].
           exists entry, ts. repeat split; [by left|done..].
        -- right. exists e, ts. repeat split; [by right|done..].
      * intros [?|(e & ts & He & Hts & Hin)]; [by left; left|].
        apply elem_of_cons in He as [->|He].
        -- left. right. by rewrite Hts.
        -- right. by exists e, ts.
    + by constructor.
    + f_equal; [exact Hname | exact Hnames].
Qed.

(** X11.  For an editor with settings and a name, [initializeMetadata]
    only ever appends to [allTags]: the tags it had stay in front, every tag
    of every entry of [allMetadata] is in it afterwards and nothing else is
    added, and no duplicate is introduced.  Every entry has a [tags] list
    afterwards, and the entries keep their names and order. *)
Theorem initializeMetadata_collects_tags (ToString : JS.value -> string)
    (w : SettingsMetadataEditor.t) (editorName : string) :
  is_Some (SettingsMetadataEditor._settings w) ->
  SettingsMetadataEditor.name w = Some editorName ->
  editorName <> "" ->
  let after := fst (SettingsMetadataEditor.initializeMetadata ToString w) in
  SettingsMetadataEditor.allTags w `prefix_of` SettingsMetadataEditor.allTags after /\
  (NoDup (SettingsMetadataEditor.allTags w) ->
   NoDup (SettingsMetadataEditor.allTags after)) /\
  (forall tag, tag ∈ SettingsMetadataEditor.allTags after <->
     tag ∈ SettingsMetadataEditor.allTags w \/
     exists entry ts,
       entry ∈ SettingsMetadataEditor.allMetadata w /\
       SettingsMetadataEditor.tags (SettingsMetadataEditor.md_metadata entry) = Some ts /\
       tag ∈ ts) /\
  Forall (fun entry => is_Some (SettingsMetadataEditor.tags
                                  (SettingsMetadataEditor.md_metadata entry)))
         (SettingsMetadataEditor.allMetadata after) /\
  SettingsMetadataEditor.md_name <$> SettingsMetadataEditor.allMetadata after
    = SettingsMetadataEditor.md_name <$> SettingsMetadataEditor.allMetadata w.
Proof.
  intros [settings Hsettings] Hname Hne. apply String.eqb_neq in Hne.
  unfold SettingsMetadataEditor.initializeMetadata. rewrite Hsettings.
  destruct (SettingsMetadataEditor.schema settings) as [s|]; simpl;
    unfold SettingsMetadataEditor.readMetadata; simpl; rewrite Hname, Hne; simpl;
    apply (visitAll_tags editorName (SettingsMetadataEditor.allMetadata w)).
Qed.

(** ** The schema and its categories *)

Lemma assign_fresh {A : Type} (key : string) (v : A) (obj : list (string * A)) :
  key ∉ obj.*1 -> SettingsMetadataEditor.assign key v obj = obj ++ [(key, v)].
Proof.
  induction obj as [|[k old] rest IH]; simpl; [done|].
  rewrite not_elem_of_cons. intros [Hne Hrest].
  destruct (String.eqb k key) eqn:E.
  - apply String.eqb_eq in E. congruence.
  - by rewrite IH.
Qed.

Lemma assign_Forall {A : Type} (P : string * A -> Prop) (key : string) (v : A)
    (obj : list (string * A)) :
  (forall k, P (k, v)) -> Forall P obj ->
  Forall P (SettingsMetadataEditor.assign key v obj).
Proof.
  intros Hv. induction 1 as [|[k old] rest Hk Hrest IH]; simpl.
  - by repeat constructor.
  - destruct (String.eqb k key); constructor; auto.
Qed.

Lemma buildSchema_entries (props : list (string * gmap string JS.value)) :
  Forall (fun entry =>
            SettingsMetadataEditor.sp_type entry.2 = "string" /\
            SettingsMetadataEditor.sp_uihints entry.2 = ∅)
         (SettingsMetadataEditor.buildSchema props).
Proof.
  unfold SettingsMetadataEditor.buildSchema.
  assert (Hfold : forall built,
    Forall (fun entry : string * SettingsMetadataEditor.SchemaProperty =>
              SettingsMetadataEditor.sp_type entry.2 = "string" /\
              SettingsMetadataEditor.sp_uihints entry.2 = ∅) built ->
    Forall (fun entry : string * SettingsMetadataEditor.SchemaProperty =>
              SettingsMetadataEditor.sp_type entry.2 = "string" /\
              SettingsMetadataEditor.sp_uihints entry.2 = ∅)
      (foldl (fun built '(prop, options) =>
                SettingsMetadataEditor.assign prop
                  {| SettingsMetadataEditor.sp_title := options !! "title";
                     SettingsMetadataEditor.sp_type := "string";
                     SettingsMetadataEditor.sp_uihints := ∅ |} built)
             built props)).
  { induction props as [|[prop options] props IH]; intros built Hbuilt; [done|].
    simpl. apply IH. by apply assign_Forall. }
  by apply Hfold.
Qed.

Lemma buildSchema_fresh (props : list (string * gmap string JS.value)) :
  NoDup props.*1 ->
  SettingsMetadataEditor.buildSchema props =
  (fun '(prop, options) =>
     (prop, {| SettingsMetadataEditor.sp_title := options !! "title";
               SettingsMetadataEditor.sp_type := "string";
               SettingsMetadataEditor.sp_uihints := ∅ |})) <$> props.
Proof.
  unfold SettingsMetadataEditor.buildSchema.
  set (entry := fun '(prop, options) =>
     (prop, {| SettingsMetadataEditor.sp_title := (options : gmap string JS.value) !! "title";
               SettingsMetadataEditor.sp_type := "string";
               SettingsMetadataEditor.sp_uihints := ∅ |})).
  assert (Hfold : forall built : list (string * SettingsMetadataEditor.SchemaProperty),
    NoDup (built.*1 ++ props.*1) ->
    foldl (fun built '(prop, options) =>
             SettingsMetadataEditor.assign prop
               {| SettingsMetadataEditor.sp_title := options !! "title";
                  SettingsMetadataEditor.sp_type := "string";
                  SettingsMetadataEditor.sp_uihints := ∅ |} built)
          built props = built ++ (entry <$> props)).
  { induction props as [|[prop options] props IH]; intros built Hnd; simpl.
    - by rewrite app_nil_r.
    - rewrite assign_fresh.
      + rewrite IH.
        * by rewrite <- app_assoc.
        * rewrite fmap_app. simpl. rewrite <- app_assoc. exact Hnd.
      + apply NoDup_app in Hnd as (_ & Hdisj & _). intros Hin.
        apply (Hdisj _ Hin). simpl. by left. }
  intros Hnd. by rewrite (Hfold [] Hnd).
Qed.

Lemma categorize_uncategorized (ToString : JS.value -> string)
    (built : list (string * SettingsMetadataEditor.SchemaProperty))
    (acc : list string) :
  Forall (fun entry => SettingsMetadataEditor.sp_uihints entry.2 = ∅) built ->
  foldl (SettingsMetadataEditor.categorize ToString) {[ "_noCategory" := acc ]} built
  = {[ "_noCategory" := acc ++ built.*1 ]}.
Proof.
  intros Hall. revert acc.
  induction Hall as [|[prop sp] rest Hsp _ IH]; intros acc; simpl.
  - by rewrite app_nil_r.
  - simpl in Hsp. rewrite Hsp, lookup_empty. simpl.
    rewrite alter_singleton_eq. rewrite (IH (acc ++ [prop])).
    by rewrite <- app_assoc.
Qed.


Lemma raw_editor_children_visibility_witness :
  RawPluginEditorLayout.rawEditor_isHidden
    (RawPluginEditorLayout.run
       [RawPluginEditorLayout.UpdateRequested;
        RawPluginEditorLayout.SetSettings (Some MetadataScene.settingsA)]
       (RawPluginEditorLayout.new true None)) = false.
Proof.
  apply (proj1 (proj2 (raw_editor_children_visibility true None
           [RawPluginEditorLayout.UpdateRequested;
            RawPluginEditorLayout.SetSettings (Some MetadataScene.settingsA)]))).
  by eexists.
Defined.

Lemma initializeMetadata_collects_tags_witness :
  NoDup (SettingsMetadataEditor.allTags
           (fst (SettingsMetadataEditor.initializeMetadata
                   MetadataScene.plainToString MetadataScene.withSchema))) /\
  "default" ∈ SettingsMetadataEditor.allTags
           (fst (SettingsMetadataEditor.initializeMetadata
                   MetadataScene.plainToString MetadataScene.withSchema)).
Proof.
  destruct (initializeMetadata_collects_tags MetadataScene.plainToString
              MetadataScene.withSchema "python")
    as (_ & Hnd & Hmem & _).
  - by eexists.
  - reflexivity.
  - discriminate.
  - split.
    + apply Hnd. apply (bool_decide_unpack _). vm_compute. exact I.
    + apply Hmem. right.
      exists (MetadataScene.entry "python" (Some "Python 3")
                (Some ["kernel"; "default"])), ["kernel"; "default"].
      repeat split.
      * simpl. do 2 right. by left.
      * right. by left.
Defined.


(** ** The entry the editor shows *)

Lemma visitAll_no_match (editorName : string)
    (entries : list SettingsMetadataEditor.IMetadata)
    (acc : SettingsMetadataEditor.Selected) :
  Forall (fun entry => SettingsMetadataEditor.md_name entry <> editorName) entries ->
  let after := snd (SettingsMetadataEditor.visitAll editorName acc entries) in
  SettingsMetadataEditor.sel_metadata after = SettingsMetadataEditor.sel_metadata acc /\
  SettingsMetadataEditor.sel_displayName after
    = SettingsMetadataEditor.sel_displayName acc /\
  SettingsMetadataEditor.sel_label after = SettingsMetadataEditor.sel_label acc.
Proof.
  intros Hall. revert acc.
  induction Hall as [|entry rest Hne _ IH]; intros acc; simpl; [done|].
  destruct (SettingsMetadataEditor.visit editorName acc entry)
    as [entry' acc'] eqn:Hvisit.
  specialize (IH acc').
  destruct (SettingsMetadataEditor.visitAll editorName acc' rest) as [rest' acc''].
  simpl in *. destruct IH as (-> & -> & ->).
  unfold SettingsMetadataEditor.visit in Hvisit.
  assert (Hneq : String.eqb editorName (SettingsMetadataEditor.md_name entry) = false)
    by (apply String.eqb_neq; congruence).
  rewrite Hneq in Hvisit.
  destruct (SettingsMetadataEditor.tags (SettingsMetadataEditor.md_metadata entry));
    by simplify_eq/=.
Qed.

Lemma visitAll_last_match (editorName : string)
    (before rest : list SettingsMetadataEditor.IMetadata)
    (entry : SettingsMetadataEditor.IMetadata)
    (acc : SettingsMetadataEditor.Selected) :
  SettingsMetadataEditor.md_name entry = editorName ->
  Forall (fun e => SettingsMetadataEditor.md_name e <> editorName) rest ->
  let after :=
    snd (SettingsMetadataEditor.visitAll editorName acc (before ++ entry :: rest)) in
  SettingsMetadataEditor.sel_metadata after =
    Some {| SettingsMetadataEditor.tags :=
              Some (default [] (SettingsMetadataEditor.tags
                                  (SettingsMetadataEditor.md_metadata entry)));
            SettingsMetadataEditor.others :=
              SettingsMetadataEditor.others (SettingsMetadataEditor.md_metadata entry) |} /\
  SettingsMetadataEditor.sel_displayName after
    = SettingsMetadataEditor.md_display_name entry /\
  SettingsMetadataEditor.sel_label after
    = default "" (SettingsMetadataEditor.md_display_name entry).
Proof.
  intros Hname Hrest. revert acc.
  induction before as [|b before IH]; intros acc; simpl.
  - destruct (SettingsMetadataEditor.visit editorName acc entry)
      as [entry' acc'] eqn:Hvisit.
    pose proof (visitAll_no_match editorName rest acc' Hrest) as Hkeep.
    destruct (SettingsMetadataEditor.visitAll editorName acc' rest) as [rest' acc''].
    simpl in *. destruct Hkeep as (-> & -> & ->).
    unfold SettingsMetadataEditor.visit in Hvisit.
    rewrite Hname, String.eqb_refl in Hvisit.
    destruct entry as [n shown [ts others]]; simpl in *.
    destruct ts; by simplify_eq/=.
  - destruct (SettingsMetadataEditor.visit editorName acc b) as [b' acc'].
    specialize (IH acc').
    by destruct (SettingsMetadataEditor.visitAll editorName acc' (before ++ entry :: rest)).
Qed.

(** X13.  An editor with settings and a name shows the last entry of
    [allMetadata] that carries its name: its metadata (with a [tags] list),
    its display name, and that name or the empty string as title.  When no
    entry carries the name, what was shown before stays. *)
Theorem initializeMetadata_shows_last_match (ToString : JS.value -> string)
    (w : SettingsMetadataEditor.t) (editorName : string) :
  is_Some (SettingsMetadataEditor._settings w) ->
  SettingsMetadataEditor.name w = Some editorName ->
  editorName <> "" ->
  let after := fst (SettingsMetadataEditor.initializeMetadata ToString w) in
  (forall before entry rest,
     SettingsMetadataEditor.allMetadata w = before ++ entry :: rest ->
     SettingsMetadataEditor.md_name entry = editorName ->
     Forall (fun e => SettingsMetadataEditor.md_name e <> editorName) rest ->
     SettingsMetadataEditor.metadata after =
       Some {| SettingsMetadataEditor.tags :=
                 Some (default [] (SettingsMetadataEditor.tags
                                     (SettingsMetadataEditor.md_metadata entry)));
               SettingsMetadataEditor.others :=
                 SettingsMetadataEditor.others
                   (SettingsMetadataEditor.md_metadata entry) |} /\
     SettingsMetadataEditor.displayName after
       = SettingsMetadataEditor.md_display_name entry /\
     SettingsMetadataEditor.title_label after
       = default "" (SettingsMetadataEditor.md_display_name entry)) /\
  (Forall (fun e => SettingsMetadataEditor.md_name e <> editorName)
          (SettingsMetadataEditor.allMetadata w) ->
   SettingsMetadataEditor.metadata after = SettingsMetadataEditor.metadata w /\
   SettingsMetadataEditor.displayName after = SettingsMetadataEditor.displayName w /\
   SettingsMetadataEditor.title_label after = SettingsMetadataEditor.title_label w).
Proof.
  intros [settings Hsettings] Hname Hne. apply String.eqb_neq in Hne.
  unfold SettingsMetadataEditor.initializeMetadata. rewrite Hsettings.
  destruct (SettingsMetadataEditor.schema settings) as [s|]; simpl;
    unfold SettingsMetadataEditor.readMetadata; simpl; rewrite Hname, Hne; simpl.
  - split.
    + intros before entry rest -> Hentry Hrest.
      by apply visitAll_last_match.
    + intros Hnone.
      match goal with
      | |- context [SettingsMetadataEditor.visitAll ?n ?a ?es] =>
          destruct (visitAll_no_match n es a Hnone) as (H1 & H2 & H3)
      end.
      simpl in *. rewrite H1, H2, H3. by rewrite ?Hne.
  - split.
    + intros before entry rest -> Hentry Hrest.
      by apply visitAll_last_match.
    + intros Hnone. by apply visitAll_no_match.
Qed.

Lemma initializeMetadata_shows_last_match_witness :
  SettingsMetadataEditor.displayName
    (fst (SettingsMetadataEditor.initializeMetadata
            MetadataScene.plainToString MetadataScene.withSchema))
  = Some "Python 3".
Proof.
  destruct (initializeMetadata_shows_last_match MetadataScene.plainToString
              MetadataScene.withSchema "python") as [Hlast _].
  - by eexists.
  - reflexivity.
  - discriminate.
  - apply (Hlast [MetadataScene.entry "python" (Some "Python 2")
                    (Some ["legacy"; "kernel"]);
                  MetadataScene.entry "r" None None]
                 (MetadataScene.entry "python" (Some "Python 3")
                    (Some ["kernel"; "default"])) []);
      [reflexivity | reflexivity | constructor].
Defined.

(** ** Missing settings, missing schema, missing name *)

(** X14.  Without settings [initializeMetadata] logs one line and does
    nothing else: no field changes and no update is requested.  With
    settings that have no schema the error is logged, the schema, its
    display name, its categories, the reference URL and the required fields
    stay what they were, and the entries are still read and an update is
    still requested.  An editor without a name gets the empty display name
    and leaves the tags and the entries alone. *)
Theorem initializeMetadata_degraded (ToString : JS.value -> string)
    (w : SettingsMetadataEditor.t) :
  (SettingsMetadataEditor._settings w = None ->
   SettingsMetadataEditor.initializeMetadata ToString w
     = (w, [ConsoleLog "No settings"])) /\
  (forall settings,
   SettingsMetadataEditor._settings w = Some settings ->
   SettingsMetadataEditor.schema settings = None ->
   let result := SettingsMetadataEditor.initializeMetadata ToString w in
   (exists text, snd result = [ConsoleLog text; UpdateRequest]) /\
   SettingsMetadataEditor.editorSchema (fst result)
     = SettingsMetadataEditor.editorSchema w /\
   SettingsMetadataEditor.schemaDisplayName (fst result)
     = SettingsMetadataEditor.schemaDisplayName w /\
   SettingsMetadataEditor.schemaPropertiesByCategory (fst result)
     = SettingsMetadataEditor.schemaPropertiesByCategory w /\
   SettingsMetadataEditor.referenceURL (fst result)
     = SettingsMetadataEditor.referenceURL w /\
   SettingsMetadataEditor.requiredFields (fst result)
     = SettingsMetadataEditor.requiredFields w) /\
  (is_Some (SettingsMetadataEditor._settings w) ->
   SettingsMetadataEditor.noName (SettingsMetadataEditor.name w) = true ->
   let result := SettingsMetadataEditor.initializeMetadata ToString w in
   SettingsMetadataEditor.displayName (fst result) = Some "" /\
   SettingsMetadataEditor.allTags (fst result) = SettingsMetadataEditor.allTags w /\
   SettingsMetadataEditor.allMetadata (fst result)
     = SettingsMetadataEditor.allMetadata w /\
   SettingsMetadataEditor.metadata (fst result) = SettingsMetadataEditor.metadata w).
Proof.
  unfold SettingsMetadataEditor.initializeMetadata. split; [|split].
  - by intros ->.
  - intros settings -> ->. simpl. split; [by eauto|].
    unfold SettingsMetadataEditor.readMetadata.
    destruct (SettingsMetadataEditor.name w) as [n|]; [|done].
    by destruct (String.eqb n "").
  - intros [settings ->] Hno.
    destruct (SettingsMetadataEditor.schema settings) as [s|]; simpl;
      unfold SettingsMetadataEditor.readMetadata; simpl;
      destruct (SettingsMetadataEditor.name w) as [n|]; simpl in *;
      rewrite ?Hno; done.
Qed.

Lemma initializeMetadata_degraded_witness :
  SettingsMetadataEditor.requiredFields
    (fst (SettingsMetadataEditor.initializeMetadata
            MetadataScene.plainToString MetadataScene.withoutSchema))
  = ["name"] /\
  SettingsMetadataEditor.initializeMetadata MetadataScene.plainToString
    (MetadataScene.editor None)
  = (MetadataScene.editor None, [ConsoleLog "No settings"]).
Proof.
  split.
  - destruct (proj1 (proj2 (initializeMetadata_degraded
                MetadataScene.plainToString MetadataScene.withoutSchema))
              {| SettingsMetadataEditor.schema := None |} eq_refl eq_refl)
      as (_ & _ & _ & _ & _ & Hrequired).
    exact Hrequired.
  - apply (proj1 (initializeMetadata_degraded MetadataScene.plainToString
                    (MetadataScene.editor None))).
    reflexivity.
Defined.

(** * Properties of the simple settings editor and its panel *)

Lemma allFulfilled_spec {A : Type} (promises : list (JS.promise A)) (values : list A) :
  SimpleSettingsEditorSetup.allFulfilled promises = Some values <->
  Forall2 (fun p v => p = JS.Fulfilled v) promises values.
Proof.
  revert values. induction promises as [|p rest IH]; intros values; simpl.
  - split; [by intros [= <-]; constructor | by intros ->%Forall2_nil_inv_l].
  - destruct p as [a| |].
    + destruct (SimpleSettingsEditorSetup.allFulfilled rest) as [vs|] eqn:Hrest.
      * split.
        -- intros [= <-]. constructor; [done | by apply IH].
        -- intros (v & vs' & [= <-] & Hvs%IH & ->)%Forall2_cons_inv_l.
           by simplify_eq.
      * split; [done|].
        intros (v & vs' & _ & Hvs%IH & _)%Forall2_cons_inv_l. done.
    + split; [done | by intros (? & ? & ? & _)%Forall2_cons_inv_l].
    + split; [done | by intros (? & ? & ? & _)%Forall2_cons_inv_l].
Qed.

Lemma allFulfilled_none {A : Type} (promises : list (JS.promise A)) :
  SimpleSettingsEditorSetup.allFulfilled promises = None <->
  Exists (fun p => forall v, p <> JS.Fulfilled v) promises.
Proof.
  induction promises as [|p rest IH]; simpl.
  - split; [done | by intros ?%Exists_nil].
  - rewrite Exists_cons. destruct p as [a| |].
    + destruct (SimpleSettingsEditorSetup.allFulfilled rest) as [vs|].
      * split; [done|]. intros [Hno|Hrest]; [by specialize (Hno a)|].
        by apply IH in Hrest.
      * split; [intros _; right; by apply IH | done].
    + split; [by left | done].
    + split; [by left | done].
Qed.

(** X15.  The simple settings editor requests the settings of every plugin
    the plugin list shows, in the list's order, whether or not earlier
    loads succeed.  Its settings panel is added exactly when every one of
    these loads is fulfilled, and then holds the loaded settings in that
    order; a single load that is rejected or never settles leaves the
    editor without a panel. *)
Theorem panel_needs_every_load (localeCompare : string -> string -> Z)
    (registry : ISettingRegistry.t) (load : string -> JS.promise Settings) :
  let wanted :=
    List.filter PluginList.hasSettings (PluginList.sortPlugins localeCompare registry) in
  let result := SimpleSettingsEditorSetup.loadPanel localeCompare registry load in
  fst result = (fun plugin => CallLoad (id plugin)) <$> wanted /\
  (forall settings,
     snd result = Some settings <->
     Forall2 (fun plugin loaded => load (id plugin) = JS.Fulfilled loaded)
             wanted settings) /\
  (snd result = None <-> Exists (fun plugin => ~ Spec.loaded load plugin) wanted).
Proof.
  intros wanted result. split; [reflexivity|]. split.
  - intros settings. unfold result, SimpleSettingsEditorSetup.loadPanel. simpl.
    rewrite allFulfilled_spec, Forall2_fmap_l. reflexivity.
  - unfold result, SimpleSettingsEditorSetup.loadPanel. simpl.
    rewrite allFulfilled_none, !Exists_exists. split.
    + intros (promise & Hin & Hno).
      apply list_elem_of_fmap in Hin as (plugin & -> & Hin).
      exists plugin. split; [done|]. intros [s Hs]. by apply (Hno s).
    + intros (plugin & Hin & Hno). exists (load (id plugin)). split.
      * by apply (list_elem_of_fmap_2 (fun plugin => load (id plugin))).
      * intros s Hs. apply Hno. by exists s.
Qed.

(** ** Selection by scrolling *)

Section scroll_facts.
Variable inView : SettingsPanel.WrapperMetrics -> SettingsPanel.ElementMetrics -> bool.

Lemma updateSelectedPlugin_first (wrapper : option SettingsPanel.WrapperMetrics)
    (editorRefs : list (string * option SettingsPanel.ElementMetrics))
    (refId : string) :
  SettingsPanel.updateSelectedPlugin inView wrapper editorRefs = Some refId ->
  exists before current after,
    editorRefs = before ++ (refId, current) :: after /\
    SettingsPanel.selects inView wrapper current = true /\
    Forall (fun r => SettingsPanel.selects inView wrapper r.2 = false) before.
Proof.
  induction editorRefs as [|[r current] rest IH]; simpl; [done|].
  destruct (SettingsPanel.selects inView wrapper current) eqn:Hsel.
  - intros [= <-]. exists [], current, rest. by repeat split.
  - intros (before & c & after & -> & Hc & Hbefore)%IH.
    exists ((r, current) :: before), c, after. repeat split; [done|].
    by constructor.
Qed.

Lemma selects_inv (wrapper : option SettingsPanel.WrapperMetrics)
    (current : option SettingsPanel.ElementMetrics) :
  SettingsPanel.selects inView wrapper current = true ->
  exists w e,
    wrapper = Some w /\ current = Some e /\
    JS.number_truthy (SettingsPanel.wrapper_scrollTop w) = true /\
    JS.number_truthy (SettingsPanel.scrollHeight e) = true /\
    inView w e = true.
Proof.
  destruct wrapper as [w|], current as [e|]; simpl; try done.
  rewrite !andb_true_iff. intros [[? ?] ?]. by exists w, e.
Qed.


End scroll_facts.


(** * Properties of the text input *)

Lemma handleAll_typed (events : list TextInput.event) (props : TextInput.Props)
    (state : TextInput.State) :
  snd (TextInput.handleAll events props state) = TextInput.typed events.
Proof.
  revert props state. induction events as [|e rest IH]; intros props state; [done|].
  simpl. rewrite IH. by destruct e.
Qed.

(** X17.  The text input passes every typed value to [onChange], in order,
    valid or not.  As long as the props stay the same, the field shows the
    value typed last; a required field that was emptied once shows "This
    field is required." from then on, also after the user has typed again,
    and in any other case typing leaves the error as it was. *)
Theorem text_input_typing (events : list TextInput.event)
    (props : TextInput.Props) (state : TextInput.State) :
  let result := TextInput.handleAll events props state in
  snd result = TextInput.typed events /\
  (Forall (fun e => forall props', e <> TextInput.Rerender props') events ->
   fst (fst result) = props /\
   TextInput.value (snd (fst result))
     = default (TextInput.value state) (last (TextInput.typed events)) /\
   TextInput.error (snd (fst result))
     = if TextInput.required props && bool_decide ("" ∈ TextInput.typed events)
       then Some "This field is required." else TextInput.error state).
Proof.
  split; [apply handleAll_typed|].
  intros Hsame. revert state.
  induction Hsame as [|e rest He _ IH]; intros state; [by rewrite andb_false_r|].
  simpl. destruct e as [newValue| |props']; [| |by destruct (He props')].
  - specialize (IH {| TextInput.error :=
                        if TextInput.required props && String.eqb newValue ""
                        then Some "This field is required."
                        else TextInput.error state;
                      TextInput.value := newValue;
                      TextInput.showPassword := TextInput.showPassword state |}).
    simpl in *. destruct IH as (-> & -> & ->). split; [done|]. split.
    + change (TextInput.typed (TextInput.Change newValue :: rest))
        with (newValue :: TextInput.typed rest).
      rewrite last_cons. by destruct (last (TextInput.typed rest)).
    + change (TextInput.typed (TextInput.Change newValue :: rest))
        with (newValue :: TextInput.typed rest).
      destruct (TextInput.required props); simpl; [|done].
      destruct (String.eqb newValue "") eqn:E.
      * apply String.eqb_eq in E. subst.
        rewrite (bool_decide_eq_true_2 ("" ∈ "" :: TextInput.typed rest)) by by left.
        by case_bool_decide.
      * apply String.eqb_neq in E.
        apply (f_equal (fun b : bool =>
                 if b then Some "This field is required." else TextInput.error state)).
        apply bool_decide_ext. rewrite elem_of_cons.
        split; [by right | intros [?|?]; [congruence | done]].
  - specialize (IH {| TextInput.error := TextInput.error state;
                      TextInput.value := TextInput.value state;
                      TextInput.showPassword := negb (TextInput.showPassword state) |}).
    simpl in *. by destruct IH as (-> & -> & ->).
Qed.

Lemma text_input_typing_witness :
  TextInput.showsError
    (snd (fst (TextInput.handleAll
                 [TextInput.Change ""; TextInput.Change "8"; TextInput.Change "80"]
                 PanelScene.requiredField
                 (TextInput.mount PanelScene.requiredField)))) = true.
Proof.
  destruct (proj2 (text_input_typing
              [TextInput.Change ""; TextInput.Change "8"; TextInput.Change "80"]
              PanelScene.requiredField
              (TextInput.mount PanelScene.requiredField)))
    as (_ & _ & Herror).
  - repeat constructor; discriminate.
  - unfold TextInput.showsError. rewrite Herror. reflexivity.
Defined.

(** * The form editor's editors *)

(** X18.  A form-based plugin editor built over a registry can scroll to
    exactly the plugins that pass the constructor's filter: [confirm(id)]
    scrolls an editor into view when [id] is the identifier of a registry
    plugin that is not deprecated and is editable or extensible, and does
    nothing at all otherwise. *)
Theorem form_confirm_scrolls_to_filtered (localeCompare : string -> string -> Z)
    (translate : string -> string) (registry : ISettingRegistry.t)
    (ident : string) (answer : JS.promise Dialog.IResult) :
  let w := FormPluginEditor.new localeCompare translate registry in
  ((exists plugin,
      plugin ∈ plugin_values registry /\ id plugin = ident /\
      PluginList.hasSettings plugin = true) ->
   snd (FormPluginEditor.confirm ident answer w) = [ScrollIntoView ident]) /\
  (~ (exists plugin,
        plugin ∈ plugin_values registry /\ id plugin = ident /\
        PluginList.hasSettings plugin = true) ->
   snd (FormPluginEditor.confirm ident answer w) = []).
Proof.
  intros w.
  assert (Hfind : forall editors : list FormPluginEditor.SettingsFormEditorWidget,
    match List.find (fun editor => String.eqb (id (FormPluginEditor.plugin editor)) ident)
                    editors with
    | Some editor => [ScrollIntoView (id (FormPluginEditor.plugin editor))]
    | None => []
    end =
    if bool_decide (ident ∈ (fun editor => id (FormPluginEditor.plugin editor)) <$> editors)
    then [ScrollIntoView ident] else []).
  { induction editors as [|editor rest IH]; simpl; [done|].
    destruct (String.eqb (id (FormPluginEditor.plugin editor)) ident) eqn:E.
    - apply String.eqb_eq in E. rewrite E.
      by rewrite bool_decide_eq_true_2 by by left.
    - apply String.eqb_neq in E. rewrite IH.
      case_bool_decide as H1; case_bool_decide as H2; try done; exfalso.
      + apply H2. by right.
      + apply elem_of_cons in H2 as [?|?]; [congruence | done]. }
  assert (Hreach :
    ident ∈ (fun editor => id (FormPluginEditor.plugin editor))
              <$> FormPluginEditor._editors w <->
    exists plugin,
      plugin ∈ plugin_values registry /\ id plugin = ident /\
      PluginList.hasSettings plugin = true).
  { unfold w, FormPluginEditor.new. simpl. rewrite <- list_fmap_compose.
    rewrite list_elem_of_fmap. split.
    - intros (plugin & -> & Hin). exists plugin.
      apply list_elem_of_In, filter_In in Hin as [Hin Hkeep].
      apply list_elem_of_In in Hin. unfold PluginList.sortPlugins in Hin.
      rewrite elem_of_sort in Hin. by repeat split.
    - intros (plugin & Hin & <- & Hkeep). exists plugin. split; [done|].
      apply list_elem_of_In, filter_In. split; [|exact Hkeep].
      apply list_elem_of_In. unfold PluginList.sortPlugins.
      by rewrite elem_of_sort. }
  assert (Hsnd : snd (FormPluginEditor.confirm ident answer w) =
    match List.find (fun editor => String.eqb (id (FormPluginEditor.plugin editor)) ident)
                    (FormPluginEditor._editors w) with
    | Some editor => [ScrollIntoView (id (FormPluginEditor.plugin editor))]
    | None => []
    end).
  { unfold FormPluginEditor.confirm, FormPluginEditor.isDirty.
    by rewrite orb_true_r. }
  rewrite Hsnd, Hfind. split.
  - intros Hyes%Hreach. by rewrite bool_decide_eq_true_2.
  - intros Hno. rewrite bool_decide_eq_false_2; [done|]. by rewrite Hreach.
Qed.

Lemma form_confirm_scrolls_to_filtered_witness :
  snd (FormPluginEditor.confirm "a" Sample.sayOk
         (FormPluginEditor.new ordinalCompare (fun text => text) Sample.mixedRegistry))
    = [ScrollIntoView "a"] /\
  snd (FormPluginEditor.confirm "old" Sample.sayOk
         (FormPluginEditor.new ordinalCompare (fun text => text) Sample.mixedRegistry))
    = [].
Proof.
  split.
  - apply (proj1 (form_confirm_scrolls_to_filtered ordinalCompare
             (fun text => text) Sample.mixedRegistry "a" Sample.sayOk)).
    exists Sample.plainA. repeat split. simpl. do 2 right. by left.
  - apply (proj2 (form_confirm_scrolls_to_filtered ordinalCompare
             (fun text => text) Sample.mixedRegistry "old" Sample.sayOk)).
    intros (plugin & Hin & Hid & Hkeep). simpl in Hin.
    repeat (apply elem_of_cons in Hin as [->|Hin]; [by vm_compute in Hkeep || by vm_compute in Hid|]).
    by apply elem_of_nil in Hin.
Defined.
